(** * B.R.A.I.N automation agent: the plan executor and the orchestrator

    A shallow embedding of [app.py]: the cleaning of the translator's
    answer ([generate_automation_plan]), the plan executor
    ([execute_playwright_plan]) and the orchestrator
    ([brain_orchestrator]), with the browser driver, the translator and
    the process environment as an external world that answers calls.

    Conventions.
    - A Python [str] is a [string] holding its UTF-8 encoding.
    - Every exception of the model is an instance of Python's
      [Exception]; cancellation and interpreter shutdown are not modelled.
    - An awaited call is run to completion before the next statement. *)

From Stdlib Require Import String Ascii List ZArith Bool Arith Lia.
From Stdlib Require Import DecimalString.
Import ListNotations.

Local Open Scope string_scope.
Local Open Scope list_scope.

(** ** Python values and exceptions *)

(** The objects [json.loads] can build. A [dict] keeps its items in
    insertion order, keys pairwise distinct; a [float] is carried by the
    text of its [repr]. *)
#[warnings="-register-all"]
Inductive pyval : Type :=
| PNone
| PBool (b : bool)
| PInt (z : Z)
| PFloat (r : string)
| PStr (s : string)
| PList (l : list pyval)
| PDict (d : list (string * pyval)).

Inductive exc_class : Type :=
| JSONDecodeError
| ValueError
| TypeError
| AttributeError
| RecursionError
| LibraryError.

(** An exception instance: its class and the text [str(e)] gives. *)
Record exn : Type := mk_exn { exn_class : exc_class; exn_str : string }.

Inductive outcome (A : Type) : Type :=
| Ok (a : A)
| Raise (e : exn).
Arguments Ok {A} a.
Arguments Raise {A} e.

(** ** Strings *)

Definition nl : string := String (ascii_of_nat 10) "".
Definition dq : string := String (ascii_of_nat 34) "".

(** [sep.join(l)] *)
Fixpoint join (sep : string) (l : list string) : string :=
  match l with
  | [] => ""
  | [x] => x
  | x :: rest => x ++ sep ++ join sep rest
  end.

(** [s.replace(old, new)] for a non-empty [old]: occurrences are found
    from the left and do not overlap. [skip] counts the characters of a
    match still to be dropped. *)
Fixpoint replace_from (skip : nat) (old new s : string) : string :=
  match s with
  | EmptyString => EmptyString
  | String c s' =>
      match skip with
      | S k => replace_from k old new s'
      | O =>
          if prefix old s
          then new ++ replace_from (String.length old - 1) old new s'
          else String c (replace_from 0 old new s')
      end
  end.

Definition replace (old new s : string) : string := replace_from 0 old new s.

(** A character given by the bytes of its UTF-8 encoding. *)
Definition utf8 (bytes : list nat) : string :=
  fold_right (fun n s => String (ascii_of_nat n) s) EmptyString bytes.

(** The characters [str.isspace] accepts: U+0009..U+000D, U+001C..U+0020,
    U+0085, U+00A0, U+1680, U+2000..U+200A, U+2028, U+2029, U+202F,
    U+205F and U+3000. *)
Definition whitespace : list string :=
  map utf8
    [[9]; [10]; [11]; [12]; [13]; [28]; [29]; [30]; [31]; [32];
     [194; 133]; [194; 160]; [225; 154; 128];
     [226; 128; 128]; [226; 128; 129]; [226; 128; 130]; [226; 128; 131];
     [226; 128; 132]; [226; 128; 133]; [226; 128; 134]; [226; 128; 135];
     [226; 128; 136]; [226; 128; 137]; [226; 128; 138];
     [226; 128; 168]; [226; 128; 169]; [226; 128; 175]; [226; 129; 159];
     [227; 128; 128]].

(** Length of the whitespace character [s] starts with, 0 when it
    starts with none. *)
Definition leading_space (s : string) : nat :=
  match find (fun w => prefix w s) whitespace with
  | Some w => String.length w
  | None => 0
  end.

Fixpoint lstrip_from (skip : nat) (s : string) : string :=
  match s with
  | EmptyString => EmptyString
  | String _ s' =>
      match skip with
      | S k => lstrip_from k s'
      | O =>
          match leading_space s with
          | O => s
          | S k => lstrip_from k s'
          end
      end
  end.

Definition lstrip (s : string) : string := lstrip_from 0 s.

Fixpoint rev_string (s : string) : string :=
  match s with
  | EmptyString => EmptyString
  | String c s' => rev_string s' ++ String c EmptyString
  end.

(** Trailing whitespace is removed on the reversed text, against the
    reversed encodings. *)
Definition trailing_space (r : string) : nat :=
  match find (fun w => prefix (rev_string w) r) whitespace with
  | Some w => String.length w
  | None => 0
  end.

Fixpoint rstrip_rev (skip : nat) (r : string) : string :=
  match r with
  | EmptyString => EmptyString
  | String _ r' =>
      match skip with
      | S k => rstrip_rev k r'
      | O =>
          match trailing_space r with
          | O => r
          | S k => rstrip_rev k r'
          end
      end
  end.

Definition rstrip (s : string) : string := rev_string (rstrip_rev 0 (rev_string s)).

(** [s.strip()] *)
Definition strip (s : string) : string := rstrip (lstrip s).

(** The characters of a [str], one string per code point: a byte
    [10xxxxxx] continues the character before it. *)
Definition is_continuation (c : ascii) : bool :=
  ((128 <=? nat_of_ascii c) && (nat_of_ascii c <? 192))%nat.

Fixpoint chars (s : string) : list string :=
  match s with
  | EmptyString => []
  | String c s' =>
      match chars s' with
      | [] => [String c ""]
      | x :: rest =>
          match x with
          | String d _ =>
              if is_continuation d then (String c x) :: rest
              else String c "" :: x :: rest
          | EmptyString => String c "" :: rest
          end
      end
  end.

(** Does the text hold a backtick? *)
Fixpoint has_backtick (s : string) : bool :=
  match s with
  | EmptyString => false
  | String c s' => Ascii.eqb c "`" || has_backtick s'
  end.

(** ** Built-in operations on values *)

Definition type_name (v : pyval) : string :=
  match v with
  | PNone => "NoneType"
  | PBool _ => "bool"
  | PInt _ => "int"
  | PFloat _ => "float"
  | PStr _ => "str"
  | PList _ => "list"
  | PDict _ => "dict"
  end.

(** [d.get(key)]: the value bound to [key], [None] when there is none. *)
Definition dict_get (d : list (string * pyval)) (key : string) : pyval :=
  match find (fun kv => String.eqb (fst kv) key) d with
  | Some kv => snd kv
  | None => PNone
  end.

(** [step.get(key)]: only a [dict] has the method. *)
Definition py_get (step : pyval) (key : string) : outcome pyval :=
  match step with
  | PDict d => Ok (dict_get d key)
  | _ => Raise (mk_exn AttributeError
                  ("'" ++ type_name step ++ "' object has no attribute 'get'"))
  end.

(** What [for step in plan] iterates over: the items of a list, the keys
    of a dict, the characters of a str. *)
Definition py_iter (plan : pyval) : outcome (list pyval) :=
  match plan with
  | PList l => Ok l
  | PDict d => Ok (map (fun kv => PStr (fst kv)) d)
  | PStr s => Ok (map PStr (chars s))
  | _ => Raise (mk_exn TypeError
                  ("'" ++ type_name plan ++ "' object is not iterable"))
  end.

(** [value == "literal"] *)
Definition eq_str (v : pyval) (lit : string) : bool :=
  match v with
  | PStr s => String.eqb s lit
  | _ => false
  end.

(** ** A state and exception monad *)

Definition M (S A : Type) : Type := S -> outcome A * S.

Definition ret {S A} (a : A) : M S A := fun s => (Ok a, s).

Definition raise {S A} (e : exn) : M S A := fun s => (Raise e, s).

Definition bind {S A B} (m : M S A) (k : A -> M S B) : M S B :=
  fun s =>
    match m s with
    | (Ok a, s') => k a s'
    | (Raise e, s') => (Raise e, s')
    end.

(** The result of a pure operation that may raise. *)
Definition lift {S A} (r : outcome A) : M S A := fun s => (r, s).

(** [try: body  except Exception as e: handler e] *)
Definition try_except {S A} (body : M S A) (handler : exn -> M S A) : M S A :=
  fun s =>
    match body s with
    | (Ok a, s') => (Ok a, s')
    | (Raise e, s') => handler e s'
    end.

(** [try: body  finally: final]: [final] always runs; what it raises
    replaces the outcome of [body]. *)
Definition try_finally {S A} (body : M S A) (final : M S unit) : M S A :=
  fun s =>
    match body s with
    | (r, s') =>
        match final s' with
        | (Ok _, s'') => (r, s'')
        | (Raise e, s'') => (Raise e, s'')
        end
    end.

Declare Scope monad_scope.
Delimit Scope monad_scope with monad.
Notation "x <- m ;; k" := (bind m (fun x => k))
  (at level 61, m at next level, right associativity) : monad_scope.
Notation "m ;; k" := (bind m (fun _ => k))
  (at level 61, right associativity) : monad_scope.

(** ** The external world *)

Definition handle : Type := nat.

(** The calls the program makes to its collaborators, indexed by the
    type of what they return. *)
Inductive call : Type -> Type :=
(* os.getenv(name) *)
| Getenv (name : string) : call (option string)
(* genai.configure(api_key=api_key) *)
| GenaiConfigure (api_key : string) : call unit
(* genai.GenerativeModel(name) *)
| GenerativeModel (name : string) : call handle
(* model.generate_content(prompt).text *)
| GenerateContent (model : handle) (prompt : string) : call string
(* await async_playwright().start() *)
| PlaywrightStart : call handle
(* await playwright.chromium.launch(headless=headless) *)
| Launch (playwright : handle) (headless : bool) : call handle
(* await browser.new_page() *)
| NewPage (browser : handle) : call handle
(* await page.goto(url) *)
| Goto (page : handle) (url : pyval) : call unit
(* await page.locator(selector).type(text) *)
| LocatorType (page : handle) (selector text : pyval) : call unit
(* await page.locator(selector).click() *)
| LocatorClick (page : handle) (selector : pyval) : call unit
(* await page.locator(selector).inner_text() *)
| LocatorInnerText (page : handle) (selector : pyval) : call string
(* await page.pause() *)
| PagePause (page : handle) : call unit
(* await browser.close() *)
| BrowserClose (browser : handle) : call unit
(* await playwright.stop() *)
| PlaywrightStop (playwright : handle) : call unit.

(** A call that was made, with what it returned or raised. *)
Inductive event : Type :=
| Ev {A : Type} (c : call A) (r : outcome A).

Definition raised (ev : event) : bool :=
  match ev with
  | Ev _ (Raise _) => true
  | Ev _ (Ok _) => false
  end.

Definition is_start (ev : event) : bool :=
  match ev with Ev PlaywrightStart _ => true | _ => false end.
Definition is_launch (ev : event) : bool :=
  match ev with Ev (Launch _ _) _ => true | _ => false end.
Definition is_new_page (ev : event) : bool :=
  match ev with Ev (NewPage _) _ => true | _ => false end.
Definition is_pause (ev : event) : bool :=
  match ev with Ev (PagePause _) _ => true | _ => false end.
Definition is_close (ev : event) : bool :=
  match ev with Ev (BrowserClose _) _ => true | _ => false end.
Definition is_stop (ev : event) : bool :=
  match ev with Ev (PlaywrightStop _) _ => true | _ => false end.

(** The calls a plan step can make on the page. *)
Definition is_page_action (ev : event) : bool :=
  match ev with
  | Ev (Goto _ _) _ | Ev (LocatorType _ _ _) _
  | Ev (LocatorClick _ _) _ | Ev (LocatorInnerText _ _) _ => true
  | _ => false
  end.

(** Any call to the browser driver. *)
Definition is_browser_call (ev : event) : bool :=
  is_start ev || is_launch ev || is_new_page ev || is_page_action ev
  || is_pause ev || is_close ev || is_stop ev.

Definition count (p : event -> bool) (t : list event) : nat :=
  List.length (filter p t).

(** ** The program *)

Module App.

Section Program.

(** The world outside the program: [answer c w] is what the call [c]
    returns or raises in the world [w], and the world afterwards. *)
Context {W : Type}.
Variable answer : forall A : Type, call A -> W -> outcome A * W.

(** [repr] of a list or of a dict, as the interpreter prints it. *)
Variable py_repr : pyval -> string.

(** [json.loads] *)
Variable json_loads : string -> outcome pyval.

(** The world, and the calls made so far, oldest first. *)
Record sys : Type := mk_sys { world : W; trace : list event }.

Definition perform {A : Type} (c : call A) : M sys A :=
  fun s =>
    let (r, w) := answer A c (world s) in
    (r, {| world := w; trace := trace s ++ [Ev c r] |}).

(** What an f-string prints for [{value}]. *)
Definition py_str (v : pyval) : string :=
  match v with
  | PStr s => s
  | PNone => "None"
  | PBool true => "True"
  | PBool false => "False"
  | PInt z => NilZero.string_of_int (Z.to_int z)
  | PFloat r => r
  | PList _ | PDict _ => py_repr v
  end.

(** *** 1. Natural language processing module *)

Definition configure_nlp_module : M sys handle :=
  (api_key <- perform (Getenv "GEMINI_API_KEY") ;;
   match api_key with
   | None | Some EmptyString =>
       raise (mk_exn ValueError
                "Gemini API key not found. Please set it in the .env file.")
   | Some key =>
       perform (GenaiConfigure key) ;;
       perform (GenerativeModel "gemini-1.5-flash-latest")
   end)%monad.

Definition structured_prompt (user_prompt : string) : string :=
  nl ++
  "    You are an expert at converting user requests into a structured series of browser automation steps." ++ nl ++
  "    Based on the user's request, provide a JSON array of actions to be executed by Playwright." ++ nl ++
  "    " ++ nl ++
  "    The available actions are: " ++ dq ++ "navigate" ++ dq ++ ", " ++ dq ++ "click" ++ dq ++ ", "
    ++ dq ++ "type" ++ dq ++ ", " ++ dq ++ "extract_text" ++ dq ++ ", " ++ dq ++ "end" ++ dq ++ "." ++ nl ++
  "    " ++ nl ++
  "    - " ++ dq ++ "navigate" ++ dq ++ ": Needs a " ++ dq ++ "url" ++ dq ++ " parameter." ++ nl ++
  "    - " ++ dq ++ "click" ++ dq ++ ": Needs a " ++ dq ++ "selector" ++ dq ++ " parameter (a CSS selector)." ++ nl ++
  "    - " ++ dq ++ "type" ++ dq ++ ": Needs a " ++ dq ++ "selector" ++ dq ++ " and a " ++ dq ++ "text" ++ dq ++ " parameter." ++ nl ++
  "    - " ++ dq ++ "extract_text" ++ dq ++ ": Needs a " ++ dq ++ "selector" ++ dq ++ " and a " ++ dq ++ "description" ++ dq ++ " for what the text is." ++ nl ++
  "    - " ++ dq ++ "end" ++ dq ++ ": Signifies the end of the task and has a " ++ dq ++ "message" ++ dq ++ " parameter to show the user." ++ nl ++
  "    " ++ nl ++
  "    User Request: " ++ dq ++ user_prompt ++ dq ++ nl ++
  "    " ++ nl ++
  "    Provide only the JSON array as your response." ++ nl ++
  "    ".

(** [response.text.strip().replace('```json', '').replace('```', '')] *)
Definition clean_plan_text (text : string) : string :=
  replace "```" "" (replace "```json" "" (strip text)).

Definition generate_automation_plan (model : handle) (user_prompt : string)
  : M sys string :=
  (text <- perform (GenerateContent model (structured_prompt user_prompt)) ;;
   ret (clean_plan_text text))%monad.

(** *** 2. Web automation module *)

(** The local variables of [execute_playwright_plan] that its handlers
    read. *)
Record frame : Type := mk_frame {
  results : list string;
  playwright : option handle;
  browser : option handle
}.

Definition init_frame : frame :=
  {| results := []; playwright := None; browser := None |}.

Definition xstate : Type := (frame * sys)%type.

Definition await {A : Type} (c : call A) : M xstate A :=
  fun st =>
    let (r, s) := perform c (snd st) in (r, (fst st, s)).

Definition results_append (line : string) : M xstate unit :=
  fun st =>
    (Ok tt, ({| results := results (fst st) ++ [line];
                playwright := playwright (fst st);
                browser := browser (fst st) |}, snd st)).

Definition set_playwright (h : handle) : M xstate unit :=
  fun st =>
    (Ok tt, ({| results := results (fst st);
                playwright := Some h;
                browser := browser (fst st) |}, snd st)).

Definition set_browser (h : handle) : M xstate unit :=
  fun st =>
    (Ok tt, ({| results := results (fst st);
                playwright := playwright (fst st);
                browser := Some h |}, snd st)).

(** The three statements that open the session. *)
Definition acquire : M xstate handle :=
  (pw <- await PlaywrightStart ;;
   set_playwright pw ;;
   b <- await (Launch pw false) ;;
   set_browser b ;;
   await (NewPage b))%monad.

(** How the body of the loop ends: with the next step, or by [break]. *)
Inductive ctl : Type := Next | Break.

(** The body of [for step in plan]. *)
Definition run_step (page : handle) (step : pyval) : M xstate ctl :=
  (action <- lift (py_get step "action") ;;
   if eq_str action "navigate" then
     url <- lift (py_get step "url") ;;
     await (Goto page url) ;;
     url' <- lift (py_get step "url") ;;
     results_append ("Navigated to " ++ py_str url') ;;
     ret Next
   else if eq_str action "type" then
     selector <- lift (py_get step "selector") ;;
     text <- lift (py_get step "text") ;;
     await (LocatorType page selector text) ;;
     text' <- lift (py_get step "text") ;;
     selector' <- lift (py_get step "selector") ;;
     results_append ("Typed '" ++ py_str text' ++ "' into '" ++ py_str selector' ++ "'") ;;
     ret Next
   else if eq_str action "click" then
     selector <- lift (py_get step "selector") ;;
     await (LocatorClick page selector) ;;
     selector' <- lift (py_get step "selector") ;;
     results_append ("Clicked on '" ++ py_str selector' ++ "'") ;;
     ret Next
   else if eq_str action "extract_text" then
     selector <- lift (py_get step "selector") ;;
     text_content <- await (LocatorInnerText page selector) ;;
     description <- lift (py_get step "description") ;;
     results_append ("Extracted Data (" ++ py_str description ++ "): " ++ text_content) ;;
     ret Next
   else if eq_str action "end" then
     message <- lift (py_get step "message") ;;
     results_append ("Task finished: " ++ py_str message) ;;
     ret Break
   else ret Next)%monad.

(** [for step in plan: ...], over the items [py_iter] gave. *)
Fixpoint run_steps (page : handle) (steps : list pyval) : M xstate ctl :=
  match steps with
  | [] => ret Next
  | step :: rest =>
      (c <- run_step page step ;;
       match c with
       | Break => ret Break
       | Next => run_steps page rest
       end)%monad
  end.

Definition finished_line : string :=
  nl ++ "✅ Automation finished. The browser is now paused.".
Definition close_line : string :=
  "Close the browser window manually to run a new command.".

(** The statements after the loop. *)
Definition park (page : handle) : M xstate unit :=
  (results_append finished_line ;;
   results_append close_line ;;
   await (PagePause page))%monad.

Definition try_body (plan : pyval) : M xstate unit :=
  (page <- acquire ;;
   steps <- lift (py_iter plan) ;;
   run_steps page steps ;;
   park page)%monad.

Definition on_error (e : exn) : M xstate unit :=
  results_append ("An error occurred: " ++ exn_str e).

(** The [finally] block. *)
Definition release : M xstate unit :=
  fun st =>
    ((match browser (fst st) with
      | Some b => await (BrowserClose b)
      | None => ret tt
      end ;;
      match playwright (fst st) with
      | Some pw => await (PlaywrightStop pw)
      | None => ret tt
      end)%monad) st.

(** The [try] statement, run on a fresh frame. *)
Definition run_plan (plan : pyval) (s : sys) : outcome unit * xstate :=
  try_finally (try_except (try_body plan) on_error) release (init_frame, s).

Definition execute_playwright_plan (plan : pyval) : M sys string :=
  fun s =>
    match run_plan plan s with
    | (Ok _, (f, s')) => (Ok (join nl (results f)), s')
    | (Raise e, (_, s')) => (Raise e, s')
    end.

(** *** Main controller *)

(** The state of the generator: what it has yielded, oldest first. *)
Definition gstate : Type := (list string * sys)%type.

Definition yield (text : string) : M gstate unit :=
  fun st => (Ok tt, (fst st ++ [text], snd st)).

Definition run {A : Type} (m : M sys A) : M gstate A :=
  fun st => let (r, s) := m (snd st) in (r, (fst st, s)).

Definition is_json_decode_error (e : exn) : bool :=
  match exn_class e with JSONDecodeError => true | _ => false end.

Definition orchestrate (user_prompt : string) : M gstate unit :=
  (model <- run configure_nlp_module ;;
   plan_json_str <- run (generate_automation_plan model user_prompt) ;;
   yield ("Generated Plan:" ++ nl ++ plan_json_str ++ nl ++ nl ++ "Executing...") ;;
   try_except
     (plan <- lift (json_loads plan_json_str) ;;
      execution_result <- run (execute_playwright_plan plan) ;;
      yield execution_result)
     (fun e =>
        if is_json_decode_error e then
          yield ("Error: Could not decode the plan from the LLM. Raw response:"
                 ++ nl ++ plan_json_str)
        else
          yield ("An execution error occurred: " ++ exn_str e)))%monad.

(** What the caller of the generator observes: the texts yielded, the
    exception that ended the iteration if one did, and the calls made. *)
Record observed : Type := mk_observed {
  yielded : list string;
  propagated : option exn;
  calls : list event
}.

Definition brain_orchestrator (user_prompt : string) (w : W) : observed :=
  match orchestrate user_prompt ([], {| world := w; trace := [] |}) with
  | (Ok _, (ys, s)) => {| yielded := ys; propagated := None; calls := trace s |}
  | (Raise e, (ys, s)) => {| yielded := ys; propagated := Some e; calls := trace s |}
  end.

End Program.

Arguments mk_sys {W} world trace.
Arguments world {W} s.
Arguments trace {W} s.

End App.

Import App.

(** ** Sample worlds

    A scripted world for the examples: it counts the calls it has
    answered, hands the count out as a fresh handle, and raises where
    the script says so. *)

Record script : Type := mk_script {
  env_api_key : option string;
  translator_text : string;
  page_text : string;
  failing : forall A : Type, call A -> option exn
}.

Definition default_answer (sc : script) {A : Type} (c : call A) (n : nat) : A :=
  match c in call T return T with
  | Getenv _ => env_api_key sc
  | GenaiConfigure _ => tt
  | GenerativeModel _ => n
  | GenerateContent _ _ => translator_text sc
  | PlaywrightStart => n
  | Launch _ _ => n
  | NewPage _ => n
  | Goto _ _ => tt
  | LocatorType _ _ _ => tt
  | LocatorClick _ _ => tt
  | LocatorInnerText _ _ => page_text sc
  | PagePause _ => tt
  | BrowserClose _ => tt
  | PlaywrightStop _ => tt
  end.

Definition scripted (sc : script) (A : Type) (c : call A) (n : nat)
  : outcome A * nat :=
  match failing sc A c with
  | Some e => (Raise e, S n)
  | None => (Ok (default_answer sc c n), S n)
  end.

Definition never_fails (A : Type) (c : call A) : option exn := None.

Definition sample_repr (v : pyval) : string := "[...]".

(** The two actions of scenario A. *)
Definition navigate_example : pyval :=
  PDict [("action", PStr "navigate"); ("url", PStr "https://example.com")].
Definition end_done : pyval :=
  PDict [("action", PStr "end"); ("message", PStr "done")].

Definition plan_A : pyval := PList [navigate_example; end_done].

Definition click_missing : pyval :=
  PDict [("action", PStr "click"); ("selector", PStr "#missing")].

Definition scroll_down : pyval :=
  PDict [("action", PStr "scroll"); ("selector", PStr "body")].

Definition quoted (s : string) : string := dq ++ s ++ dq.

(** The text of scenario A. *)
Definition text_A : string :=
  "[{" ++ quoted "action" ++ ":" ++ quoted "navigate" ++ ","
  ++ quoted "url" ++ ":" ++ quoted "https://example.com" ++ "},{"
  ++ quoted "action" ++ ":" ++ quoted "end" ++ ","
  ++ quoted "message" ++ ":" ++ quoted "done" ++ "}]".

(** [json.loads] tabulated on the texts the examples use: scenario A,
    alone and between two newlines; an empty array; a number; an empty
    object; and [not-json], which is not JSON. No example decodes a text
    outside the table. *)
Definition sample_json_loads (text : string) : outcome pyval :=
  if (text =? text_A)%string then Ok plan_A
  else if (text =? nl ++ text_A ++ nl)%string then Ok plan_A
  else if (text =? "[]")%string then Ok (PList [])
  else if (text =? "42")%string then Ok (PInt 42)
  else if (text =? "{}")%string then Ok (PDict [])
  else if (text =? "not-json")%string then
    Raise (mk_exn JSONDecodeError "Expecting value: line 1 column 1 (char 0)")
  else Raise (mk_exn LibraryError "text outside the table").

Definition timeout_error : exn := mk_exn LibraryError "Timeout 30000ms exceeded.".
Definition closed_error : exn :=
  mk_exn LibraryError "Connection closed while reading from the driver".
Definition no_browser_error : exn :=
  mk_exn LibraryError "Executable doesn't exist".

Definition click_fails (A : Type) (c : call A) : option exn :=
  match c with
  | LocatorClick _ _ => Some timeout_error
  | _ => None
  end.

Definition start_fails (A : Type) (c : call A) : option exn :=
  match c with
  | PlaywrightStart => Some no_browser_error
  | _ => None
  end.

Definition close_fails (A : Type) (c : call A) : option exn :=
  match c with
  | BrowserClose _ => Some closed_error
  | _ => None
  end.

(** A world with the API key set, where the translator answers [text]
    and the calls [failing] selects raise. *)
Definition world_with (text : string) (failing : forall A : Type, call A -> option exn)
  : script :=
  {| env_api_key := Some "secret";
     translator_text := text;
     page_text := "Hello";
     failing := failing |}.

(** The same with no API key in the environment. *)
Definition world_without_key : script :=
  {| env_api_key := None;
     translator_text := text_A;
     page_text := "Hello";
     failing := never_fails |}.

Definition fresh : sys (W := nat) := {| world := 0; trace := [] |}.


(** A number of 5000 digits: more than the interpreter converts. *)
Fixpoint ones (n : nat) : string :=
  match n with
  | O => EmptyString
  | S k => String "1" (ones k)
  end.
Definition long_number : string := ones 5000.

Definition digits_error : exn :=
  mk_exn ValueError
    "Exceeds the limit (4300 digits) for integer string conversion: value has 5000 digits; use sys.set_int_max_str_digits() to increase the limit".

(** [sample_json_loads], with the [ValueError] that [json.loads] lets
    through when the text is [long_number]. *)
Definition sample_json_loads_limited (text : string) : outcome pyval :=
  if (text =? long_number)%string then Raise digits_error
  else sample_json_loads text.

(** The worlds of the examples. *)
Definition answers (text : string) := scripted (world_with text never_fails).
Definition calm := answers text_A.
Definition clicks_time_out := scripted (world_with text_A click_fails).
Definition driver_missing := scripted (world_with text_A start_fails).
Definition close_breaks := scripted (world_with text_A close_fails).
Definition no_key := scripted world_without_key.

(** ** What a step asks of the page *)

Inductive request : Type :=
| ReqGoto (page : handle) (url : pyval)
| ReqType (page : handle) (selector text : pyval)
| ReqClick (page : handle) (selector : pyval)
| ReqInnerText (page : handle) (selector : pyval).

Definition request_of (ev : event) : list request :=
  match ev with
  | Ev (Goto p url) _ => [ReqGoto p url]
  | Ev (LocatorType p sel text) _ => [ReqType p sel text]
  | Ev (LocatorClick p sel) _ => [ReqClick p sel]
  | Ev (LocatorInnerText p sel) _ => [ReqInnerText p sel]
  | _ => []
  end.

(** The page requests of a trace, in the order they were made. *)
Definition requests (t : list event) : list request := flat_map request_of t.

(** The request the source makes for a decoded action, by its kind. *)
Definition step_request (page : handle) (step : pyval) : list request :=
  match step with
  | PDict d =>
      let action := dict_get d "action" in
      if eq_str action "navigate" then [ReqGoto page (dict_get d "url")]
      else if eq_str action "type" then
        [ReqType page (dict_get d "selector") (dict_get d "text")]
      else if eq_str action "click" then [ReqClick page (dict_get d "selector")]
      else if eq_str action "extract_text" then
        [ReqInnerText page (dict_get d "selector")]
      else []
  | _ => []
  end.

Definition in_vocabulary (kind : pyval) : bool :=
  eq_str kind "navigate" || eq_str kind "type" || eq_str kind "click"
  || eq_str kind "extract_text" || eq_str kind "end".

Definition is_end (step : pyval) : bool :=
  match step with
  | PDict d => eq_str (dict_get d "action") "end"
  | _ => false
  end.

Definition is_release (ev : event) : bool := is_close ev || is_stop ev.

Definition succeeded (p : event -> bool) (ev : event) : bool :=
  p ev && negb (raised ev).

Definition failed (p : event -> bool) (ev : event) : bool :=
  p ev && raised ev.


(** ** How a state grows *)

(** [st'] is [st] with the events [evs] and the log lines [lines]
    added, the session variables untouched. *)
Definition extends {W : Type} (st st' : xstate (W := W))
  (evs : list event) (lines : list string) : Prop :=
  playwright (fst st') = playwright (fst st)
  /\ browser (fst st') = browser (fst st)
  /\ results (fst st') = results (fst st) ++ lines
  /\ trace (snd st') = trace (snd st) ++ evs.

(** The line the [except] clause logs. *)
Definition error_line (e : exn) : string := "An error occurred: " ++ exn_str e.

(** The error line, when [r] is an exception. *)
Definition error_lines {A : Type} (r : outcome A) : list string :=
  match r with
  | Ok _ => []
  | Raise e => [error_line e]
  end.

Definition all_page_actions (evs : list event) : Prop :=
  Forall (fun ev => is_page_action ev = true) evs.

Definition all_release (evs : list event) : Prop :=
  Forall (fun ev => is_release ev = true) evs.

(** The statements of the [try] block that follow the acquisition. *)
Definition after_acquire {W : Type} (answer : forall A : Type, call A -> W -> outcome A * W)
  (py_repr : pyval -> string) (page : handle) (plan : pyval) : M xstate unit :=
  (steps <- lift (py_iter plan) ;;
   run_steps answer py_repr page steps ;;
   park answer page)%monad.

(** ** The stages of the orchestrator *)

(** The first stage: configuration, then the translator. *)
Definition translate_stage {W : Type} (answer : forall A : Type, call A -> W -> outcome A * W)
  (user_prompt : string) : M (sys (W := W)) string :=
  (model <- configure_nlp_module answer ;;
   generate_automation_plan answer model user_prompt)%monad.

Definition progress_message (plan_json_str : string) : string :=
  "Generated Plan:" ++ nl ++ plan_json_str ++ nl ++ nl ++ "Executing...".

Definition decode_error_message (plan_json_str : string) : string :=
  "Error: Could not decode the plan from the LLM. Raw response:" ++ nl ++ plan_json_str.

Definition execution_error_message (e : exn) : string :=
  "An execution error occurred: " ++ exn_str e.

(** What the [except] clauses of the orchestrator yield for [e]. *)
Definition caught_message (plan_json_str : string) (e : exn) : string :=
  if is_json_decode_error e then decode_error_message plan_json_str
  else execution_error_message e.

Definition is_dict (v : pyval) : bool :=
  match v with PDict _ => true | _ => false end.

(** ** Further observations *)

(** Does [pat] occur in [s]? *)
Fixpoint occurs (pat s : string) : bool :=
  match s with
  | EmptyString => prefix pat EmptyString
  | String _ s' => prefix pat s || occurs pat s'
  end.

Definition request_page (r : request) : handle :=
  match r with
  | ReqGoto p _ | ReqType p _ _ | ReqClick p _ | ReqInnerText p _ => p
  end.

(** A call made on the handles of one session: its page, its browser,
    its driver. *)
Definition on_session (pw b page : handle) (ev : event) : bool :=
  match ev with
  | Ev (Goto p _) _ | Ev (LocatorType p _ _) _ | Ev (LocatorClick p _) _
  | Ev (LocatorInnerText p _) _ | Ev (PagePause p) _ => Nat.eqb p page
  | Ev (BrowserClose x) _ => Nat.eqb x b
  | Ev (PlaywrightStop x) _ => Nat.eqb x pw
  | _ => false
  end.

Definition is_generate (ev : event) : bool :=
  match ev with Ev (GenerateContent _ _) _ => true | _ => false end.

Definition key_error : exn :=
  mk_exn ValueError "Gemini API key not found. Please set it in the .env file.".

Definition model_name : string := "gemini-1.5-flash-latest".

(** The message of the [AttributeError] a step that is no dict raises. *)
Definition no_get_error (step : pyval) : exn :=
  mk_exn AttributeError ("'" ++ type_name step ++ "' object has no attribute 'get'").

(** The message of the [TypeError] a plan that cannot be iterated raises. *)
Definition not_iterable_error (plan : pyval) : exn :=
  mk_exn TypeError ("'" ++ type_name plan ++ "' object is not iterable").

Definition is_scalar (v : pyval) : bool :=
  match v with
  | PNone | PBool _ | PInt _ | PFloat _ => true
  | _ => false
  end.

(** Does the dict bind [key]? *)
Definition has_key (d : list (string * pyval)) (key : string) : bool :=
  existsb (fun kv => String.eqb (fst kv) key) d.

(** What a step that awaits [c] and then logs [line] leaves behind: the
    call and the line when the call returns, the call alone and its
    exception when it raises. *)
Definition logs_after {W A : Type}
  (answer : forall A : Type, call A -> W -> outcome A * W)
  (c : call A) (line : A -> string) (st : xstate (W := W))
  (res : outcome ctl * xstate (W := W)) : Prop :=
  match fst (answer A c (world (snd st))) with
  | Ok x => fst res = Ok Next /\ extends st (snd res) [Ev c (Ok x)] [line x]
  | Raise e => fst res = Raise e /\ extends st (snd res) [Ev c (Raise e)] []
  end.

(** * Properties *)

Section Properties.

Context {W : Type}.
Variable answer : forall A : Type, call A -> W -> outcome A * W.
Variable py_repr : pyval -> string.
Variable json_loads : string -> outcome pyval.

Local Abbreviation await := (App.await answer).
Local Abbreviation run_step := (App.run_step answer py_repr).
Local Abbreviation run_steps := (App.run_steps answer py_repr).
Local Abbreviation acquire := (App.acquire answer).
Local Abbreviation park := (App.park answer).
Local Abbreviation release := (App.release answer).
Local Abbreviation try_body := (App.try_body answer py_repr).
Local Abbreviation run_plan := (App.run_plan answer py_repr).
Local Abbreviation execute_playwright_plan := (App.execute_playwright_plan answer py_repr).
Local Abbreviation py_str := (App.py_str py_repr).
Local Abbreviation drive := (after_acquire answer py_repr).

Implicit Types (st : xstate (W := W)) (s : sys (W := W)).

Lemma extends_refl st : extends st st [] [].
Proof. unfold extends. now rewrite !app_nil_r. Qed.

Lemma extends_trans st1 st2 st3 e1 l1 e2 l2 :
  extends st1 st2 e1 l1 -> extends st2 st3 e2 l2 ->
  extends st1 st3 (e1 ++ e2) (l1 ++ l2).
Proof.
  unfold extends. intros (A1 & B1 & C1 & D1) (A2 & B2 & C2 & D2).
  rewrite A2, B2, C2, D2, A1, B1, C1, D1, !app_assoc. auto.
Qed.

Lemma await_eq {A} (c : call A) st :
  await c st =
    (fst (answer A c (world (snd st))),
     (fst st, {| world := snd (answer A c (world (snd st)));
                 trace := trace (snd st) ++ [Ev c (fst (answer A c (world (snd st))))] |})).
Proof.
  unfold App.await, perform. destruct (answer A c (world (snd st))). reflexivity.
Qed.

Lemma await_extends {A} (c : call A) st r st' :
  await c st = (r, st') -> extends st st' [Ev c r] [].
Proof.
  rewrite await_eq. intros H. inversion H; subst. unfold extends; simpl.
  now rewrite app_nil_r.
Qed.

Lemma results_append_eq line st :
  results_append line st =
    (Ok tt, ({| results := results (fst st) ++ [line];
                playwright := playwright (fst st);
                browser := browser (fst st) |}, snd st)).
Proof. reflexivity. Qed.

Lemma results_append_extends line st r st' :
  results_append line st = (r, st') -> r = Ok tt /\ extends st st' [] [line].
Proof.
  rewrite results_append_eq. intros H; inversion H; subst. split; auto.
  unfold extends; simpl. now rewrite app_nil_r.
Qed.

(** One awaited call followed by one log line: the shape of the four
    page actions. *)
Lemma call_then_log {A} (c : call A) (line : A -> string) st r st' :
  (x <- await c ;; results_append (line x) ;; ret Next)%monad st = (r, st') ->
  match fst (answer A c (world (snd st))) with
  | Ok x => r = Ok Next /\ extends st st' [Ev c (Ok x)] [line x]
  | Raise e => r = Raise e /\ extends st st' [Ev c (Raise e)] []
  end.
Proof.
  unfold bind. rewrite await_eq.
  destruct (answer A c (world (snd st))) as [[x|e] w]; simpl; intros H;
    inversion H; subst; split; auto; unfold extends; simpl;
    now rewrite ?app_nil_r.
Qed.

(** The loop body on a dict, with the lookups done. *)
Lemma run_step_dict page d :
  run_step page (PDict d) =
    (let action := dict_get d "action" in
     if eq_str action "navigate" then
       await (Goto page (dict_get d "url")) ;;
       results_append ("Navigated to " ++ py_str (dict_get d "url")) ;;
       ret Next
     else if eq_str action "type" then
       await (LocatorType page (dict_get d "selector") (dict_get d "text")) ;;
       results_append ("Typed '" ++ py_str (dict_get d "text") ++ "' into '"
                       ++ py_str (dict_get d "selector") ++ "'") ;;
       ret Next
     else if eq_str action "click" then
       await (LocatorClick page (dict_get d "selector")) ;;
       results_append ("Clicked on '" ++ py_str (dict_get d "selector") ++ "'") ;;
       ret Next
     else if eq_str action "extract_text" then
       text_content <- await (LocatorInnerText page (dict_get d "selector")) ;;
       results_append ("Extracted Data (" ++ py_str (dict_get d "description")
                       ++ "): " ++ text_content) ;;
       ret Next
     else if eq_str action "end" then
       results_append ("Task finished: " ++ py_str (dict_get d "message")) ;;
       ret Break
     else ret Next)%monad.
Proof.
  unfold App.run_step. cbn [py_get]. unfold bind at 1, lift at 1.
  cbv zeta.
  destruct (eq_str (dict_get d "action") "navigate"); [reflexivity|].
  destruct (eq_str (dict_get d "action") "type"); [reflexivity|].
  destruct (eq_str (dict_get d "action") "click"); [reflexivity|].
  destruct (eq_str (dict_get d "action") "extract_text"); [reflexivity|].
  destruct (eq_str (dict_get d "action") "end"); reflexivity.
Qed.

Lemma eq_str_true v lit : eq_str v lit = true -> v = PStr lit.
Proof.
  destruct v; simpl; try discriminate. intros H.
  apply String.eqb_eq in H. now subst.
Qed.

Ltac step_done :=
  cbn;
  repeat match goal with
    | |- _ /\ _ => split
    | |- _ <-> _ => split; intros; try discriminate
    | |- Forall _ _ => repeat constructor
    | |- all_page_actions _ => repeat constructor
    | |- _ \/ _ => first [left; reflexivity | right; eauto]
    | |- _ => first [reflexivity | discriminate | (intros; discriminate)]
    end.

(** What one pass through the loop body does: at most one page call,
    the one of the step's kind; a log line only when nothing was
    raised; [break] exactly on [end]. *)
Lemma run_step_effect page step st r st' :
  run_step page step st = (r, st') ->
  exists evs lines,
    extends st st' evs lines
    /\ requests evs = step_request page step
    /\ all_page_actions evs
    /\ match r with
       | Ok c =>
           Forall (fun ev => raised ev = false) evs
           /\ (c = Break <-> is_end step = true)
           /\ (is_end step = true ->
               exists d, step = PDict d
                 /\ lines = [("Task finished: " ++ py_str (dict_get d "message"))%string])
       | Raise e =>
           lines = []
           /\ (evs = [] \/ exists A (c : call A), evs = [Ev c (Raise e)])
       end.
Proof.
  destruct step as [| b | z | f | t | l | d];
    try (intros H; inversion H; subst; exists [], [];
         split; [apply extends_refl|]; cbn; repeat split; auto; constructor).
  rewrite run_step_dict. cbv zeta. unfold is_end, step_request.
  destruct (eq_str (dict_get d "action") "navigate") eqn:E1.
  { apply eq_str_true in E1. rewrite E1. cbn [eq_str String.eqb Ascii.eqb Bool.eqb].
    intros H. apply (call_then_log _ (fun _ => _)) in H.
    destruct (fst (answer unit _ (world (snd st)))) as [[]|e]; destruct H as [-> H];
      eexists _, _; (split; [exact H|]); step_done. }
  destruct (eq_str (dict_get d "action") "type") eqn:E2.
  { apply eq_str_true in E2. rewrite E2. cbn [eq_str String.eqb Ascii.eqb Bool.eqb].
    intros H. apply (call_then_log _ (fun _ => _)) in H.
    destruct (fst (answer unit _ (world (snd st)))) as [[]|e]; destruct H as [-> H];
      eexists _, _; (split; [exact H|]); step_done. }
  destruct (eq_str (dict_get d "action") "click") eqn:E3.
  { apply eq_str_true in E3. rewrite E3. cbn [eq_str String.eqb Ascii.eqb Bool.eqb].
    intros H. apply (call_then_log _ (fun _ => _)) in H.
    destruct (fst (answer unit _ (world (snd st)))) as [[]|e]; destruct H as [-> H];
      eexists _, _; (split; [exact H|]); step_done. }
  destruct (eq_str (dict_get d "action") "extract_text") eqn:E4.
  { apply eq_str_true in E4. rewrite E4. cbn [eq_str String.eqb Ascii.eqb Bool.eqb].
    intros H. apply (call_then_log _ (fun x => _)) in H.
    destruct (fst (answer string _ (world (snd st)))) as [x|e]; destruct H as [-> H];
      eexists _, _; (split; [exact H|]); step_done. }
  destruct (eq_str (dict_get d "action") "end") eqn:E5.
  { intros H. unfold bind in H. rewrite results_append_eq in H.
    inversion H; subst.
    exists [], [("Task finished: " ++ py_str (dict_get d "message"))%string].
    split.
    - unfold extends; cbn. now rewrite app_nil_r.
    - cbn. repeat split; auto; try constructor. intros _. eexists; split; reflexivity. }
  intros H. inversion H; subst. exists [], [].
  split; [apply extends_refl|]. step_done.
Qed.

(** *** The loop *)

Lemma run_steps_cons page step rest st :
  run_steps page (step :: rest) st =
    match run_step page step st with
    | (Ok Next, st1) => run_steps page rest st1
    | (Ok Break, st1) => (Ok Break, st1)
    | (Raise e, st1) => (Raise e, st1)
    end.
Proof.
  cbn [App.run_steps]. unfold bind at 1.
  destruct (run_step page step st) as [[[]|e] st1]; reflexivity.
Qed.

(** Steps that all fall through to the next one can be run first. *)
Lemma run_steps_app page pre rest st st2 :
  run_steps page pre st = (Ok Next, st2) ->
  run_steps page (pre ++ rest) st = run_steps page rest st2.
Proof.
  revert st. induction pre as [|x pre IH]; intros st H.
  - cbn in H. inversion H. reflexivity.
  - rewrite <- app_comm_cons, run_steps_cons. rewrite run_steps_cons in H.
    destruct (run_step page x st) as [[[]|e] st1]; try discriminate.
    now apply IH.
Qed.

(** Once the loop has been left, by [break] or by an exception, the
    steps that follow do not matter. *)
Lemma run_steps_app_left page pre rest st r st2 :
  run_steps page pre st = (r, st2) -> r <> Ok Next ->
  run_steps page (pre ++ rest) st = (r, st2).
Proof.
  revert st. induction pre as [|x pre IH]; intros st H Hr.
  - cbn in H. inversion H; subst. congruence.
  - rewrite <- app_comm_cons, run_steps_cons. rewrite run_steps_cons in H.
    destruct (run_step page x st) as [[[]|e] st1]; auto.
Qed.

(** The loop either runs every step, or stops at one step that breaks
    or raises after all the steps before it fell through. *)
Lemma run_steps_cases page steps st r st' :
  run_steps page steps st = (r, st') ->
  r = Ok Next
  \/ exists pre step post st2,
       steps = pre ++ step :: post
       /\ run_steps page pre st = (Ok Next, st2)
       /\ run_step page step st2 = (r, st')
       /\ r <> Ok Next.
Proof.
  revert st. induction steps as [|x steps IH]; intros st H.
  - cbn in H. inversion H. now left.
  - rewrite run_steps_cons in H.
    destruct (run_step page x st) as [[[]|e] st1] eqn:Hx.
    + destruct (IH _ H) as [->|(pre & step & post & st2 & -> & H1 & H2 & H3)];
        [now left|right].
      exists (x :: pre), step, post, st2. repeat split; auto.
      rewrite run_steps_cons, Hx. exact H1.
    + inversion H; subst. right. exists [], x, steps, st.
      repeat split; auto. discriminate.
    + inversion H; subst. right. exists [], x, steps, st.
      repeat split; auto. discriminate.
Qed.

(** Steps that all fall through: their page calls are made in the
    order of the steps, none raises, and none of the steps is [end]. *)
Lemma run_steps_next page steps st st' :
  run_steps page steps st = (Ok Next, st') ->
  exists evs lines,
    extends st st' evs lines
    /\ requests evs = flat_map (step_request page) steps
    /\ all_page_actions evs
    /\ Forall (fun ev => raised ev = false) evs
    /\ Forall (fun step => is_end step = false) steps.
Proof.
  revert st. induction steps as [|x steps IH]; intros st H.
  - cbn in H. inversion H; subst. exists [], [].
    split; [apply extends_refl|]. repeat split; constructor.
  - rewrite run_steps_cons in H.
    destruct (run_step page x st) as [[[]|e] st1] eqn:Hx; try discriminate.
    destruct (run_step_effect _ _ _ _ _ Hx) as (e1 & l1 & X1 & R1 & P1 & O1 & B1 & _).
    destruct (IH _ H) as (e2 & l2 & X2 & R2 & P2 & O2 & N2).
    exists (e1 ++ e2), (l1 ++ l2).
    split; [eapply extends_trans; eauto|]. repeat split.
    + unfold requests in *. rewrite flat_map_app. cbn [flat_map]. congruence.
    + apply Forall_app; auto.
    + apply Forall_app; auto.
    + constructor; auto. destruct (is_end x); auto.
      destruct B1 as [_ B1]. now specialize (B1 eq_refl).
Qed.

(** *** Acquisition, parking and release *)

(** The session is opened one handle after the other; the frame keeps
    each handle that was obtained. *)
Lemma acquire_effect s r st1 :
  acquire (init_frame, s) = (r, st1) ->
  results (fst st1) = []
  /\ ((exists e,
         r = Raise e
         /\ playwright (fst st1) = None /\ browser (fst st1) = None
         /\ trace (snd st1) = trace s ++ [Ev PlaywrightStart (Raise e)])
      \/ (exists pw e,
            r = Raise e
            /\ playwright (fst st1) = Some pw /\ browser (fst st1) = None
            /\ trace (snd st1) =
                 trace s ++ [Ev PlaywrightStart (Ok pw);
                             Ev (Launch pw false) (Raise e)])
      \/ (exists pw b,
            playwright (fst st1) = Some pw /\ browser (fst st1) = Some b
            /\ trace (snd st1) =
                 trace s ++ [Ev PlaywrightStart (Ok pw);
                             Ev (Launch pw false) (Ok b);
                             Ev (NewPage b) r])).
Proof.
  unfold App.acquire, bind. rewrite await_eq. cbn [fst snd].
  destruct (answer _ PlaywrightStart (world s)) as [[pw|e] w1]; cbn.
  2:{ intros H; inversion H; subst; cbn. split; auto. left. eauto. }
  rewrite await_eq. cbn [fst snd world trace].
  destruct (answer _ (Launch pw false) w1) as [[b|e] w2]; cbn.
  2:{ intros H; inversion H; subst; cbn. split; auto. right; left.
      exists pw, e. rewrite <- app_assoc. auto. }
  rewrite await_eq. cbn [fst snd world trace].
  intros H; inversion H; subst; cbn. split; auto. right; right.
  exists pw, b. rewrite <- !app_assoc. auto.
Qed.

Lemma park_effect page st r st' :
  park page st = (r, st') ->
  extends st st' [Ev (PagePause page) r] [finished_line; close_line].
Proof.
  unfold App.park, bind. rewrite !results_append_eq, await_eq. cbn [fst snd].
  intros H; inversion H; subst. unfold extends; cbn.
  rewrite <- app_assoc. auto.
Qed.

(** The [finally] block: the browser is closed if the frame holds one,
    then the driver is stopped if the frame holds one and the close
    returned. *)
Lemma release_effect st r st' :
  release st = (r, st') ->
  fst st' = fst st
  /\ exists rel,
       trace (snd st') = trace (snd st) ++ rel
       /\ match browser (fst st), playwright (fst st) with
          | None, None => rel = [] /\ r = Ok tt
          | None, Some pw => rel = [Ev (PlaywrightStop pw) r]
          | Some b, None => rel = [Ev (BrowserClose b) r]
          | Some b, Some pw =>
              (exists e, rel = [Ev (BrowserClose b) (Raise e)] /\ r = Raise e)
              \/ rel = [Ev (BrowserClose b) (Ok tt); Ev (PlaywrightStop pw) r]
          end.
Proof.
  unfold App.release, bind.
  destruct (browser (fst st)) as [b|], (playwright (fst st)) as [pw|];
    cbn [ret]; rewrite ?await_eq; cbn [fst snd ret world trace].
  - destruct (answer _ (BrowserClose b) (world (snd st))) as [[[]|e] w1]; cbn.
    + intros H; inversion H; subst; cbn. split; auto.
      eexists; split; [|right; reflexivity]. now rewrite <- app_assoc.
    + intros H; inversion H; subst; cbn. split; auto.
      eexists; split; [reflexivity|]. left; eauto.
  - destruct (answer _ (BrowserClose b) (world (snd st))) as [[[]|e] w1];
      intros H; inversion H; subst; cbn; split; auto; eexists; split; reflexivity.
  - intros H; inversion H; subst; cbn; split; auto; eexists; split; reflexivity.
  - intros H; inversion H; subst; cbn. split; auto.
    exists []. now rewrite app_nil_r.
Qed.

(** *** The [try] statement as a whole *)

Local Abbreviation guarded plan := (try_except (try_body plan) on_error).

Lemma on_error_extends e st :
  exists st', on_error e st = (Ok tt, st') /\ extends st st' [] [error_line e].
Proof.
  eexists; split; [reflexivity|]. unfold extends; cbn. now rewrite app_nil_r.
Qed.

Lemma try_body_eq plan st :
  try_body plan st =
    match acquire st with
    | (Ok page, st1) => drive page plan st1
    | (Raise e, st1) => (Raise e, st1)
    end.
Proof. reflexivity. Qed.

(** The session could not be opened: the error line is all that is
    added. *)
Lemma guarded_not_acquired plan s e st1 :
  acquire (init_frame, s) = (Raise e, st1) ->
  exists st3,
    guarded plan (init_frame, s) = (Ok tt, st3)
    /\ extends st1 st3 [] [error_line e].
Proof.
  intros H. unfold try_except. rewrite try_body_eq, H. apply on_error_extends.
Qed.

(** The plan cannot be iterated over. *)
Lemma guarded_not_iterable plan s page st1 e :
  acquire (init_frame, s) = (Ok page, st1) ->
  py_iter plan = Raise e ->
  exists st3,
    guarded plan (init_frame, s) = (Ok tt, st3)
    /\ extends st1 st3 [] [error_line e].
Proof.
  intros H Hi. unfold try_except. rewrite try_body_eq, H.
  unfold after_acquire, bind, lift. rewrite Hi. apply on_error_extends.
Qed.

(** The loop was left by an exception. *)
Lemma guarded_loop_raised plan s page st1 steps e st2 :
  acquire (init_frame, s) = (Ok page, st1) ->
  py_iter plan = Ok steps ->
  run_steps page steps st1 = (Raise e, st2) ->
  exists st3,
    guarded plan (init_frame, s) = (Ok tt, st3)
    /\ extends st2 st3 [] [error_line e].
Proof.
  intros H Hi Hl. unfold try_except. rewrite try_body_eq, H.
  unfold after_acquire, bind, lift. rewrite Hi, Hl. apply on_error_extends.
Qed.

(** The loop was left normally, at the end of the plan or by [break]:
    the two closing lines are logged and the page is paused; a pause
    that raises adds the error line. *)
Lemma guarded_loop_done plan s page st1 steps c st2 :
  acquire (init_frame, s) = (Ok page, st1) ->
  py_iter plan = Ok steps ->
  run_steps page steps st1 = (Ok c, st2) ->
  exists rp st3,
    guarded plan (init_frame, s) = (Ok tt, st3)
    /\ extends st2 st3 [Ev (PagePause page) rp]
         ([finished_line; close_line] ++ error_lines rp).
Proof.
  intros H Hi Hl. unfold try_except. rewrite try_body_eq, H.
  unfold after_acquire, bind, lift. rewrite Hi, Hl.
  destruct (park page st2) as [[[]|e] st3] eqn:Hp; apply park_effect in Hp.
  - exists (Ok tt), st3. split; auto.
  - destruct (on_error_extends e st3) as (st4 & -> & X).
    exists (Raise e), st4. split; auto.
    change [Ev (PagePause page) (Raise e)] with ([Ev (PagePause page) (Raise e)] ++ []).
    eapply extends_trans; eauto.
Qed.

(** Every exception raised inside the [try] block is caught. *)
Lemma guarded_total plan s :
  exists st3, guarded plan (init_frame, s) = (Ok tt, st3).
Proof.
  destruct (acquire (init_frame, s)) as [[page|e] st1] eqn:Ha.
  2:{ destruct (guarded_not_acquired plan _ _ _ Ha) as (st3 & H & _); eauto. }
  destruct (py_iter plan) as [steps|e] eqn:Hi.
  2:{ destruct (guarded_not_iterable _ _ _ _ _ Ha Hi) as (st3 & H & _); eauto. }
  destruct (run_steps page steps st1) as [[c|e] st2] eqn:Hl.
  - destruct (guarded_loop_done _ _ _ _ _ _ _ Ha Hi Hl) as (rp & st3 & H & _); eauto.
  - destruct (guarded_loop_raised _ _ _ _ _ _ _ Ha Hi Hl) as (st3 & H & _); eauto.
Qed.

(** The [finally] block decides what the [try] statement returns. *)
Lemma run_plan_release plan s st3 :
  guarded plan (init_frame, s) = (Ok tt, st3) ->
  run_plan plan s = release st3.
Proof.
  intros H. unfold App.run_plan, try_finally. rewrite H.
  destruct (release st3) as [[[]|e] st4]; reflexivity.
Qed.

(** Whatever way the loop ends, its page calls are those of the
    first [k] steps, in the order of the plan. *)
Lemma run_steps_effect page steps st r st' :
  run_steps page steps st = (r, st') ->
  exists k evs lines,
    extends st st' evs lines
    /\ all_page_actions evs
    /\ requests evs = flat_map (step_request page) (firstn k steps).
Proof.
  intros H. destruct (run_steps_cases _ _ _ _ _ H)
    as [->|(pre & step & post & st2 & -> & H1 & H2 & _)].
  - destruct (run_steps_next _ _ _ _ H) as (evs & lines & X & R & P & _).
    exists (length steps), evs, lines. rewrite firstn_all. auto.
  - destruct (run_steps_next _ _ _ _ H1) as (e1 & l1 & X1 & R1 & P1 & _).
    destruct (run_step_effect _ _ _ _ _ H2) as (e2 & l2 & X2 & R2 & P2 & _).
    exists (S (length pre)), (e1 ++ e2), (l1 ++ l2).
    split; [eapply extends_trans; eauto|]. split; [apply Forall_app; auto|].
    replace (firstn (S (length pre)) (pre ++ step :: post)) with (pre ++ [step]).
    + unfold requests in *. rewrite !flat_map_app. cbn. rewrite app_nil_r. congruence.
    + change (pre ++ step :: post) with (pre ++ [step] ++ post).
      rewrite app_assoc, firstn_app.
      replace (S (length pre)) with (length (pre ++ [step])) at 1
        by (rewrite length_app; cbn; lia).
      rewrite firstn_all. rewrite length_app. cbn [length].
      replace (S (length pre) - (length pre + 1)) with 0 by lia.
      cbn. now rewrite app_nil_r.
Qed.

Lemma release_only st r st' :
  release st = (r, st') ->
  fst st' = fst st
  /\ exists rel, trace (snd st') = trace (snd st) ++ rel /\ all_release rel.
Proof.
  intros H. destruct (release_effect _ _ _ H) as (F & rel & T & S).
  split; auto. exists rel. split; auto. unfold all_release.
  destruct (browser (fst st)), (playwright (fst st)).
  - destruct S as [(e & -> & _)| ->]; repeat constructor.
  - subst; repeat constructor.
  - subst; repeat constructor.
  - destruct S as [-> _]; constructor.
Qed.

(** *** Steps of kind [end] and steps of no known kind *)

Lemma run_step_end page step st :
  is_end step = true ->
  exists d,
    step = PDict d
    /\ run_step page step st =
         (Ok Break,
          ({| results := results (fst st)
                         ++ [("Task finished: " ++ py_str (dict_get d "message"))%string];
              playwright := playwright (fst st);
              browser := browser (fst st) |}, snd st)).
Proof.
  destruct step as [| | | | | |d]; try discriminate. cbn [is_end]. intros H.
  exists d. split; auto. rewrite run_step_dict. cbv zeta.
  apply eq_str_true in H. rewrite H. reflexivity.
Qed.

Lemma run_step_unknown page d st :
  in_vocabulary (dict_get d "action") = false ->
  run_step page (PDict d) st = (Ok Next, st).
Proof.
  unfold in_vocabulary. intros H. rewrite run_step_dict. cbv zeta.
  repeat (apply orb_false_elim in H; destruct H as [H ?]).
  repeat match goal with E : _ = false |- _ => rewrite E; clear E end.
  reflexivity.
Qed.

(** Dropping a step that changes nothing changes nothing. *)
Lemma run_steps_drop page x pre post :
  (forall st, run_step page x st = (Ok Next, st)) ->
  forall st, run_steps page (pre ++ x :: post) st = run_steps page (pre ++ post) st.
Proof.
  intros Hx. induction pre as [|y pre IH]; intros st.
  - cbn [app]. now rewrite run_steps_cons, Hx.
  - rewrite <- !app_comm_cons, !run_steps_cons.
    destruct (run_step page y st) as [[[]|e] st1]; auto.
Qed.

(** Two lists of steps the loop treats alike give the same run. *)
Lemma run_plan_ext l1 l2 :
  (forall page st, run_steps page l1 st = run_steps page l2 st) ->
  forall s, run_plan (PList l1) s = run_plan (PList l2) s.
Proof.
  intros H s. unfold App.run_plan, try_finally, try_except.
  rewrite !try_body_eq.
  destruct (acquire (init_frame, s)) as [[page|e] st1]; auto.
  unfold after_acquire, bind, lift. cbn [py_iter]. now rewrite H.
Qed.

(** Nothing that follows an [end] step is looked at. *)
Lemma run_steps_truncate page plan i step :
  nth_error plan i = Some step -> is_end step = true ->
  forall st, run_steps page plan st = run_steps page (firstn (S i) plan) st.
Proof.
  intros Hn He st.
  destruct (nth_error_split _ _ Hn) as (pre & post & -> & <-).
  replace (firstn (S (length pre)) (pre ++ step :: post)) with (pre ++ [step]).
  2:{ rewrite firstn_app, firstn_all2 by lia.
      replace (S (length pre) - length pre) with 1 by lia. reflexivity. }
  destruct (run_steps page pre st) as [r st2] eqn:Hpre.
  destruct r as [[]|e].
  - rewrite !(run_steps_app _ _ _ _ _ Hpre), !run_steps_cons.
    destruct (run_step_end page step st2 He) as (d & -> & ->). reflexivity.
  - rewrite !(run_steps_app_left _ _ _ _ _ _ Hpre); auto; discriminate.
  - rewrite !(run_steps_app_left _ _ _ _ _ _ Hpre); auto; discriminate.
Qed.

(** The [try] block with its [except] clause, from start to end: the
    acquisition, then page calls and at most the pause. *)
Lemma guarded_effect plan s :
  exists ra st1 st3 mid lines,
    acquire (init_frame, s) = (ra, st1)
    /\ guarded plan (init_frame, s) = (Ok tt, st3)
    /\ extends st1 st3 mid lines
    /\ Forall (fun ev => is_page_action ev || is_pause ev = true) mid
    /\ (forall e, ra = Raise e -> mid = []).
Proof.
  destruct (acquire (init_frame, s)) as [[page|e] st1] eqn:Ha.
  2:{ destruct (guarded_not_acquired plan _ _ _ Ha) as (st3 & H & X).
      exists (Raise e), st1, st3, [], [error_line e].
      split; [reflexivity|]. split; [exact H|]. split; [exact X|].
      split; [constructor|reflexivity]. }
  destruct (py_iter plan) as [steps|e] eqn:Hi.
  2:{ destruct (guarded_not_iterable _ _ _ _ _ Ha Hi) as (st3 & H & X).
      exists (Ok page), st1, st3, [], [error_line e].
      split; [reflexivity|]. split; [exact H|]. split; [exact X|].
      split; [constructor|discriminate]. }
  destruct (run_steps page steps st1) as [[c|e] st2] eqn:Hl;
    destruct (run_steps_effect _ _ _ _ _ Hl) as (k & evs & lines & X2 & P2 & _).
  - destruct (guarded_loop_done _ _ _ _ _ _ _ Ha Hi Hl) as (rp & st3 & H & X3).
    eexists (Ok page), st1, st3, _, _.
    split; [reflexivity|]. split; [exact H|].
    split; [eapply extends_trans; eauto|].
    split; [|discriminate]. apply Forall_app. split.
    + eapply Forall_impl; [|exact P2]. cbn. intros ev ->. reflexivity.
    + repeat constructor.
  - destruct (guarded_loop_raised _ _ _ _ _ _ _ Ha Hi Hl) as (st3 & H & X3).
    eexists (Ok page), st1, st3, _, _.
    split; [reflexivity|]. split; [exact H|].
    split; [eapply extends_trans; eauto|].
    split; [|discriminate]. rewrite app_nil_r.
    eapply Forall_impl; [|exact P2]. cbn. intros ev ->. reflexivity.
Qed.

(** What the [finally] block returns is what its last call returned. *)
Lemma release_outcome st r st' :
  release st = (r, st') ->
  exists rel,
    trace (snd st') = trace (snd st) ++ rel
    /\ all_release rel
    /\ match r with
       | Ok _ => Forall (fun ev => raised ev = false) rel
       | Raise e => exists A (c : call A), In (Ev c (Raise e)) rel
       end.
Proof.
  intros H. destruct (release_effect _ _ _ H) as (_ & rel & T & S).
  exists rel. split; auto. unfold all_release.
  destruct (browser (fst st)), (playwright (fst st)).
  - destruct S as [(e & -> & ->)| ->].
    + split; [repeat constructor|]. eexists _, _. left; reflexivity.
    + split; [repeat constructor|]. destruct r; [repeat constructor|].
      eexists _, _. right; left; reflexivity.
  - subst. split; [repeat constructor|]. destruct r; [repeat constructor|].
    eexists _, _. left; reflexivity.
  - subst. split; [repeat constructor|]. destruct r; [repeat constructor|].
    eexists _, _. left; reflexivity.
  - destruct S as [-> ->]. repeat constructor.
Qed.

Lemma count_app p t1 t2 : count p (t1 ++ t2) = count p t1 + count p t2.
Proof. unfold count. now rewrite filter_app, length_app. Qed.

Lemma count_none p t :
  Forall (fun ev => p ev = false) t -> count p t = 0.
Proof.
  unfold count. induction 1 as [|ev t H _ IH]; cbn; auto. now rewrite H.
Qed.

(** Page calls and the pause are none of the calls that open or
    release the session. *)
Lemma count_mid p mid :
  Forall (fun ev => is_page_action ev || is_pause ev = true) mid ->
  (forall ev, is_page_action ev || is_pause ev = true -> p ev = false) ->
  count p mid = 0.
Proof.
  intros H Hp. apply count_none. eapply Forall_impl; [|exact H]. exact Hp.
Qed.

(** ** The statements of the specification *)

(** C9. When, with the session open, a step raises after the steps
    before it all completed, the run logs exactly one line, carrying
    the text of the exception, after the lines already logged; the
    call that raised was made once; nothing is asked of the browser
    afterwards but its release, whatever steps remain; and the log
    lines and page calls of the earlier steps stand. *)
Theorem first_step_error_aborts_plan :
  forall pre step post s page st1 st2 e st3,
    acquire (init_frame, s) = (Ok page, st1) ->
    run_steps page pre st1 = (Ok Next, st2) ->
    run_step page step st2 = (Raise e, st3) ->
    exists r f s' rel earlier lines,
      run_plan (PList (pre ++ step :: post)) s = (r, (f, s'))
      /\ extends st1 st2 earlier lines
      /\ requests earlier = flat_map (step_request page) pre
      /\ results f = results (fst st2) ++ [error_line e]
      /\ (trace (snd st3) = trace (snd st2)
          \/ exists A (c : call A),
               trace (snd st3) = trace (snd st2) ++ [Ev c (Raise e)])
      /\ trace s' = trace (snd st3) ++ rel
      /\ all_release rel.
Proof.
  intros pre step post s page st1 st2 e st3 Ha Hpre Hstep.
  assert (Hl : run_steps page (pre ++ step :: post) st1 = (Raise e, st3)).
  { rewrite (run_steps_app _ _ _ _ _ Hpre), run_steps_cons, Hstep. reflexivity. }
  destruct (guarded_loop_raised (PList (pre ++ step :: post)) _ _ _ _ _ _ Ha eq_refl Hl)
    as (st4 & Hg & X4).
  rewrite (run_plan_release _ _ _ Hg).
  destruct (release st4) as [r [f s']] eqn:Hr.
  destruct (release_only _ _ _ Hr) as (F & rel & T & R). cbn [fst snd] in *.
  destruct (run_steps_next _ _ _ _ Hpre) as (earlier & lines & X & Q & _).
  destruct (run_step_effect _ _ _ _ _ Hstep) as (e3 & l3 & X3 & _ & _ & -> & E3).
  exists r, f, s', rel, earlier, lines.
  destruct X4 as (_ & _ & L4 & T4), X3 as (_ & _ & L3 & T3).
  rewrite app_nil_r in *.
  split; [reflexivity|]. split; [exact X|]. split; [exact Q|].
  split; [subst f; now rewrite L4, L3|].
  split; [|split; [now rewrite T, T4|exact R]].
  destruct E3 as [->|(A & c & ->)]; [left; now rewrite T3, app_nil_r|right; eauto].
Qed.

(** C6. A decoded action whose kind is none of the five known ones
    leaves the log, the trace and the world as they are, raises
    nothing, and the loop goes on with the action after it: the plan
    runs exactly as it does without that action. *)
Theorem unknown_kind_is_skipped :
  forall d,
    in_vocabulary (dict_get d "action") = false ->
    (forall page st, run_step page (PDict d) st = (Ok Next, st))
    /\ (forall page rest st,
          run_steps page (PDict d :: rest) st = run_steps page rest st)
    /\ (forall pre post s,
          run_plan (PList (pre ++ PDict d :: post)) s
          = run_plan (PList (pre ++ post)) s).
Proof.
  intros d H. split; [|split].
  - intros. now apply run_step_unknown.
  - intros. now rewrite run_steps_cons, run_step_unknown.
  - intros pre post. apply run_plan_ext. intros page st.
    apply run_steps_drop. intros. now apply run_step_unknown.
Qed.

(** C4 (as amended). With an [end] action at index [i]: the run of
    the plan is the run of its first [i + 1] actions, so nothing at a
    higher index is performed; the page calls of the loop are those of
    a prefix of the plan, in the order of the plan; and when the
    session is open and the actions before [i] all completed, none of
    them an [end], the message line is logged, followed by the two
    closing lines and the pause of the normal ending. *)
Theorem end_stops_the_plan :
  forall plan i step,
    nth_error plan i = Some step ->
    is_end step = true ->
    (forall s, run_plan (PList plan) s = run_plan (PList (firstn (S i) plan)) s)
    /\ (forall page st r st',
          run_steps page plan st = (r, st') ->
          exists k evs lines,
            k <= S i
            /\ extends st st' evs lines
            /\ all_page_actions evs
            /\ requests evs = flat_map (step_request page) (firstn k plan))
    /\ (forall s page st1 st2,
          acquire (init_frame, s) = (Ok page, st1) ->
          run_steps page (firstn i plan) st1 = (Ok Next, st2) ->
          exists d rp r f s' rel,
            step = PDict d
            /\ run_plan (PList plan) s = (r, (f, s'))
            /\ results f =
                 results (fst st2)
                 ++ [("Task finished: " ++ py_str (dict_get d "message"))%string;
                     finished_line; close_line]
                 ++ error_lines rp
            /\ trace s' = trace (snd st2) ++ Ev (PagePause page) rp :: rel
            /\ all_release rel).
Proof.
  intros plan i step Hn He. split; [|split].
  - apply run_plan_ext. intros. eapply run_steps_truncate; eauto.
  - intros page st r st' H.
    rewrite (run_steps_truncate _ _ _ _ Hn He) in H.
    destruct (run_steps_effect _ _ _ _ _ H) as (k & evs & lines & X & P & R).
    exists (Nat.min k (S i)), evs, lines.
    split; [lia|]. split; [exact X|]. split; [exact P|].
    now rewrite R, firstn_firstn.
  - intros s page st1 st2 Ha Hpre.
    destruct (nth_error_split _ _ Hn) as (pre & post & -> & <-).
    rewrite firstn_app, firstn_all, Nat.sub_diag in Hpre.
    cbn [firstn] in Hpre. rewrite app_nil_r in Hpre.
    destruct (run_step_end page step st2 He) as (d & -> & Hs).
    assert (Hl : run_steps page (pre ++ PDict d :: post) st1
                 = (Ok Break, ({| results := results (fst st2)
                                    ++ [("Task finished: " ++ py_str (dict_get d "message"))%string];
                                  playwright := playwright (fst st2);
                                  browser := browser (fst st2) |}, snd st2))).
    { rewrite (run_steps_app _ _ _ _ _ Hpre), run_steps_cons, Hs. reflexivity. }
    destruct (guarded_loop_done (PList (pre ++ PDict d :: post)) _ _ _ _ _ _ Ha eq_refl Hl)
      as (rp & st3 & Hg & X3).
    rewrite (run_plan_release _ _ _ Hg).
    destruct (release st3) as [r [f s']] eqn:Hr.
    destruct (release_only _ _ _ Hr) as (F & rel & T & R). cbn [fst snd] in *.
    exists d, rp, r, f, s', rel.
    destruct X3 as (_ & _ & L3 & T3). cbn [fst snd results] in *.
    split; [reflexivity|]. split; [reflexivity|].
    split; [subst f; rewrite L3, <- app_assoc; reflexivity|].
    split; [rewrite T, T3, <- app_assoc; reflexivity|exact R].
Qed.

(** C8. Scenario A, with any actions after its two: when the session
    opens and the navigation returns, the log is the line of the
    navigation, then the line of the [end] action, then the two closing
    lines (and the error line if the pause raises); the only page call
    is the navigation, followed by the pause and the release. *)
Theorem scenario_A_log :
  forall extra s page st1,
    acquire (init_frame, s) = (Ok page, st1) ->
    fst (answer unit (Goto page (PStr "https://example.com")) (world (snd st1)))
      = Ok tt ->
    exists rp r f s' rel,
      run_plan (PList (navigate_example :: end_done :: extra)) s = (r, (f, s'))
      /\ results f =
           ["Navigated to https://example.com"%string;
            "Task finished: done"%string;
            finished_line; close_line] ++ error_lines rp
      /\ trace s' =
           trace (snd st1)
           ++ [Ev (Goto page (PStr "https://example.com")) (Ok tt);
               Ev (PagePause page) rp] ++ rel
      /\ all_release rel.
Proof.
  intros extra s page st1 Ha Hgo.
  destruct (acquire_effect _ _ _ Ha) as (R1 & _).
  assert (Hl : exists st2,
             run_steps page (navigate_example :: end_done :: extra) st1 = (Ok Break, st2)
             /\ extends st1 st2 [Ev (Goto page (PStr "https://example.com")) (Ok tt)]
                  ["Navigated to https://example.com"%string;
                   "Task finished: done"%string]).
  { rewrite run_steps_cons. unfold navigate_example at 1. rewrite run_step_dict.
    cbn [dict_get find fst snd String.eqb Ascii.eqb Bool.eqb eq_str App.py_str].
    cbv zeta. unfold bind at 1. rewrite await_eq.
    destruct (answer unit (Goto page (PStr "https://example.com")) (world (snd st1)))
      as [ra w1]. cbn [fst snd] in *. subst ra.
    unfold bind at 1. rewrite results_append_eq. cbn [ret fst snd].
    rewrite run_steps_cons. unfold end_done at 1.
    eexists; split; [reflexivity|].
    unfold extends; cbn. rewrite <- app_assoc. auto. }
  destruct Hl as (st2 & Hl & X2).
  destruct (guarded_loop_done (PList (navigate_example :: end_done :: extra))
              _ _ _ _ _ _ Ha eq_refl Hl) as (rp & st3 & Hg & X3).
  rewrite (run_plan_release _ _ _ Hg).
  destruct (release st3) as [r [f s']] eqn:Hr.
  destruct (release_only _ _ _ Hr) as (F & rel & T & R). cbn [fst snd] in *.
  exists rp, r, f, s', rel.
  destruct X3 as (_ & _ & L3 & T3), X2 as (_ & _ & L2 & T2).
  split; [reflexivity|].
  split; [subst f; rewrite L3, L2, R1; reflexivity|].
  split; [rewrite T, T3, T2, <- !app_assoc; reflexivity|exact R].
Qed.

(** C1 (as amended). With the session open: when the loop ends
    without an exception, at the end of the plan or by [break], the two
    closing lines are logged, the page is paused, and only then is the
    browser closed; when the loop ends by an exception, the error line
    is logged and the browser is released with no closing line and no
    pause. *)
Theorem pause_only_after_a_clean_loop :
  forall plan steps s page st1,
    acquire (init_frame, s) = (Ok page, st1) ->
    py_iter plan = Ok steps ->
    (forall c st2,
       run_steps page steps st1 = (Ok c, st2) ->
       exists rp r f s' b rc rel,
         run_plan plan s = (r, (f, s'))
         /\ results f =
              results (fst st2) ++ [finished_line; close_line] ++ error_lines rp
         /\ trace s' =
              trace (snd st2)
              ++ Ev (PagePause page) rp :: Ev (BrowserClose b) rc :: rel
         /\ all_release rel)
    /\ (forall e st2,
          run_steps page steps st1 = (Raise e, st2) ->
          exists r f s' rel,
            run_plan plan s = (r, (f, s'))
            /\ results f = results (fst st2) ++ [error_line e]
            /\ trace s' = trace (snd st2) ++ rel
            /\ all_release rel).
Proof.
  intros plan steps s page st1 Ha Hi. split.
  - intros c st2 Hl.
    destruct (guarded_loop_done _ _ _ _ _ _ _ Ha Hi Hl) as (rp & st3 & Hg & X3).
    rewrite (run_plan_release _ _ _ Hg).
    destruct (release st3) as [r [f s']] eqn:Hr.
    destruct (release_effect _ _ _ Hr) as (F & rel & T & S).
    destruct (release_only _ _ _ Hr) as (_ & rel' & T' & R).
    rewrite T in T'. apply app_inv_head in T'. subst rel'.
    destruct (run_steps_effect _ _ _ _ _ Hl) as (k & evs & lines & X2 & _).
    destruct (acquire_effect _ _ _ Ha)
      as (_ & [(e & E & _)|[(pw & e & E & _)|(pw & b & P1 & B1 & _)]]);
      try discriminate.
    destruct X3 as (P3 & B3 & L3 & T3), X2 as (P2 & B2 & _).
    rewrite B3, B2, B1, P3, P2, P1 in S. cbn [fst snd] in *.
    destruct S as [(e & -> & _)| ->].
    + exists rp, r, f, s', b, (Raise e), [].
      split; [reflexivity|]. split; [subst f; now rewrite L3|].
      split; [rewrite T, T3, <- app_assoc; reflexivity|constructor].
    + exists rp, r, f, s', b, (Ok tt), [Ev (PlaywrightStop pw) r].
      split; [reflexivity|]. split; [subst f; now rewrite L3|].
      split; [rewrite T, T3, <- app_assoc; reflexivity|].
      inversion R; auto.
  - intros e st2 Hl.
    destruct (guarded_loop_raised _ _ _ _ _ _ _ Ha Hi Hl) as (st3 & Hg & X3).
    rewrite (run_plan_release _ _ _ Hg).
    destruct (release st3) as [r [f s']] eqn:Hr.
    destruct (release_only _ _ _ Hr) as (F & rel & T & R). cbn [fst snd] in *.
    exists r, f, s', rel. destruct X3 as (_ & _ & L3 & T3).
    rewrite app_nil_r in T3.
    split; [reflexivity|]. split; [subst f; now rewrite L3|].
    split; [now rewrite T, T3|exact R].
Qed.

Ltac mid_silent :=
  let ev := fresh "ev" in
  let c := fresh "c" in
  intros [? c []]; destruct c; cbn; intros; try discriminate; reflexivity.

Ltac count_mid_zero M :=
  repeat match goal with
    | |- context [count ?p ?mid] =>
        is_var mid; rewrite (count_mid p mid M) by mid_silent
    end.

(** C5 (as amended). In every execution the driver is started once,
    at most one browser is launched and at most one page opened; the
    browser is closed exactly once if it was launched and not at all
    otherwise, so once the session is open the close runs exactly once;
    the driver is stopped at most once, and exactly once when it was
    started and the close returned; the release calls come after every
    other call. *)
Theorem session_accounting :
  forall plan s,
    exists r f s' body rel,
      run_plan plan s = (r, (f, s'))
      /\ trace s' = trace s ++ body ++ rel
      /\ Forall (fun ev => is_release ev = false) body
      /\ all_release rel
      /\ count is_start body = 1
      /\ count is_launch body <= 1
      /\ count is_new_page body <= 1
      /\ count is_launch body = count (succeeded is_start) body
      /\ count is_new_page body = count (succeeded is_launch) body
      /\ count (succeeded is_new_page) body <= 1
      /\ count is_close rel = count (succeeded is_launch) body
      /\ (count (succeeded is_new_page) body = 1 -> count is_close rel = 1)
      /\ count is_stop rel <= count (succeeded is_start) body
      /\ (count (failed is_close) rel = 0 ->
          count is_stop rel = count (succeeded is_start) body).
Proof.
  intros plan s.
  destruct (guarded_effect plan s) as (ra & st1 & st3 & mid & lines & Ha & Hg & X & M & Mnil).
  rewrite (run_plan_release _ _ _ Hg).
  destruct (release st3) as [r [f s']] eqn:Hr.
  destruct (release_effect _ _ _ Hr) as (_ & rel & T & S).
  destruct X as (P3 & B3 & _ & T3). rewrite B3, P3 in S. cbn [fst snd] in *.
  assert (Hmid : Forall (fun ev => is_release ev = false) mid).
  { eapply Forall_impl; [|exact M]. mid_silent. }
  destruct (acquire_effect _ _ _ Ha)
    as (_ & [(e & E & P1 & B1 & T1)|[(pw & e & E & P1 & B1 & T1)|(pw & b & P1 & B1 & T1)]]);
    rewrite P1, B1 in S.
  - destruct S as [-> ->]. rewrite (Mnil _ E) in *.
    exists (Ok tt), f, s', [Ev PlaywrightStart (Raise e)], [].
    split; [reflexivity|].
    split; [rewrite T, T3, T1, !app_nil_r; reflexivity|].
    cbn. repeat split; auto; repeat constructor.
  - subst rel. rewrite (Mnil _ E) in *.
    exists r, f, s', [Ev PlaywrightStart (Ok pw); Ev (Launch pw false) (Raise e)],
      [Ev (PlaywrightStop pw) r].
    split; [reflexivity|].
    split; [rewrite T, T3, T1, !app_nil_r, <- app_assoc; reflexivity|].
    cbn. repeat split; auto; repeat constructor.
  - destruct S as [(e & -> & ->)| ->].
    + exists (Raise e), f, s',
        ([Ev PlaywrightStart (Ok pw); Ev (Launch pw false) (Ok b); Ev (NewPage b) ra]
         ++ mid),
        [Ev (BrowserClose b) (Raise e)].
      split; [reflexivity|].
      split; [rewrite T, T3, T1, <- !app_assoc; reflexivity|].
      split; [apply Forall_app; split; [repeat constructor|exact Hmid]|].
      split; [repeat constructor|].
      rewrite !count_app. count_mid_zero M.
      destruct ra; cbn; repeat split; auto; discriminate.
    + exists r, f, s',
        ([Ev PlaywrightStart (Ok pw); Ev (Launch pw false) (Ok b); Ev (NewPage b) ra]
         ++ mid),
        [Ev (BrowserClose b) (Ok tt); Ev (PlaywrightStop pw) r].
      split; [reflexivity|].
      split; [rewrite T, T3, T1, <- !app_assoc; reflexivity|].
      split; [apply Forall_app; split; [repeat constructor|exact Hmid]|].
      split; [repeat constructor|].
      rewrite !count_app. count_mid_zero M.
      destruct ra; cbn; repeat split; auto.
Qed.

(** C10 (as amended). Whatever the plan, every exception raised in the
    [try] block, by the opening of the session, by a step or by the
    pause, is caught; the function returns the log, joined by newlines,
    whenever no release call raises, and the only exceptions it lets
    through are those raised by a release call. *)
Theorem total_unless_release_raises :
  forall plan s,
    exists st3 r f s' t,
      try_except (try_body plan) on_error (init_frame, s) = (Ok tt, st3)
      /\ run_plan plan s = (r, (f, s'))
      /\ trace s' = trace s ++ t
      /\ (Forall (fun ev => is_release ev = true -> raised ev = false) t ->
          execute_playwright_plan plan s = (Ok (join nl (results f)), s'))
      /\ (forall e,
            fst (execute_playwright_plan plan s) = Raise e ->
            exists A (c : call A),
              In (Ev c (Raise e)) t /\ is_release (Ev c (Raise e)) = true).
Proof.
  intros plan s.
  destruct (guarded_effect plan s) as (ra & st1 & st3 & mid & lines & Ha & Hg & X & _).
  unfold App.execute_playwright_plan. rewrite (run_plan_release _ _ _ Hg).
  destruct (release st3) as [r [f s']] eqn:Hr.
  destruct (release_outcome _ _ _ Hr) as (rel & T & R & O).
  assert (Hacq : exists acq, trace (snd st1) = trace s ++ acq).
  { destruct (acquire_effect _ _ _ Ha)
      as (_ & [(e & _ & _ & _ & T1)|[(pw & e & _ & _ & _ & T1)|(pw & b & _ & _ & T1)]]);
      eauto. }
  destruct Hacq as (acq & T1). destruct X as (_ & _ & _ & T3). cbn [fst snd] in *.
  exists st3, r, f, s', (acq ++ mid ++ rel).
  split; [exact Hg|]. split; [reflexivity|].
  split; [rewrite T, T3, T1, <- !app_assoc; reflexivity|].
  destruct r as [[]|e]; split.
  - reflexivity.
  - cbn. discriminate.
  - intros Hall. exfalso. destruct O as (A & c & Hin).
    rewrite !Forall_app in Hall. destruct Hall as (_ & _ & Hall).
    rewrite Forall_forall in Hall. specialize (Hall _ Hin).
    unfold all_release in R. rewrite Forall_forall in R. specialize (R _ Hin).
    specialize (Hall R). discriminate.
  - cbn. intros e' E; inversion E; subst e'. destruct O as (A & c & Hin).
    exists A, c. split.
    + apply in_or_app; right. apply in_or_app; right. exact Hin.
    + unfold all_release in R. rewrite Forall_forall in R. exact (R _ Hin).
Qed.

(** *** The orchestrator *)

Local Abbreviation translate := (translate_stage answer).
Local Abbreviation brain_orchestrator := (App.brain_orchestrator answer py_repr json_loads).

(** The orchestrator, stage by stage. *)
Lemma brain_orchestrator_eq user_prompt w :
  brain_orchestrator user_prompt w =
    match translate user_prompt {| world := w; trace := [] |} with
    | (Raise e, s1) =>
        {| yielded := []; propagated := Some e; calls := trace s1 |}
    | (Ok text, s1) =>
        match json_loads text with
        | Raise e =>
            {| yielded := [progress_message text; caught_message text e];
               propagated := None; calls := trace s1 |}
        | Ok plan =>
            match execute_playwright_plan plan s1 with
            | (Ok log, s2) =>
                {| yielded := [progress_message text; log];
                   propagated := None; calls := trace s2 |}
            | (Raise e, s2) =>
                {| yielded := [progress_message text; caught_message text e];
                   propagated := None; calls := trace s2 |}
            end
        end
    end.
Proof.
  unfold App.brain_orchestrator, orchestrate, translate_stage.
  unfold bind, run, lift, try_except, yield, caught_message. cbn [fst snd].
  destruct (configure_nlp_module answer {| world := w; trace := [] |})
    as [[model|e] s0]; [|reflexivity].
  cbn [fst snd].
  destruct (generate_automation_plan answer model user_prompt s0)
    as [[text|e] s1]; [|reflexivity].
  cbn [fst snd app].
  destruct (json_loads text) as [plan|e].
  - destruct (execute_playwright_plan plan s1) as [[log|e] s2]; cbn [fst snd app].
    + reflexivity.
    + destruct (is_json_decode_error e); reflexivity.
  - destruct (is_json_decode_error e); reflexivity.
Qed.

Lemma perform_eq {A} (c : call A) s :
  perform answer c s =
    (fst (answer A c (world s)),
     {| world := snd (answer A c (world s));
        trace := trace s ++ [Ev c (fst (answer A c (world s)))] |}).
Proof. unfold perform. destruct (answer A c (world s)). reflexivity. Qed.

(** The first stage talks to the process environment and to the
    translator, never to the browser driver. *)
Lemma translate_trace user_prompt s r s1 :
  translate user_prompt s = (r, s1) ->
  exists t,
    trace s1 = trace s ++ t
    /\ Forall (fun ev => is_browser_call ev = false) t.
Proof.
  unfold translate_stage, configure_nlp_module, generate_automation_plan, bind, raise, ret.
  rewrite perform_eq.
  destruct (answer _ (Getenv "GEMINI_API_KEY") (world s)) as [[[key|]|e] w1];
    cbn [fst snd].
  2,3: intros H; inversion H; subst; cbn; eexists; split; [reflexivity|];
       repeat constructor.
  destruct key as [|a key].
  { intros H; inversion H; subst; cbn; eexists; split; [reflexivity|];
      repeat constructor. }
  rewrite perform_eq. cbn [world trace].
  destruct (answer _ (GenaiConfigure (String a key)) w1) as [[[]|e] w2]; cbn [fst snd].
  2:{ intros H; inversion H; subst; cbn. rewrite <- app_assoc.
      eexists; split; [reflexivity|]; repeat constructor. }
  rewrite perform_eq. cbn [world trace].
  destruct (answer _ (GenerativeModel "gemini-1.5-flash-latest") w2) as [[model|e] w3];
    cbn [fst snd].
  2:{ intros H; inversion H; subst; cbn. rewrite <- !app_assoc.
      eexists; split; [reflexivity|]; repeat constructor. }
  rewrite perform_eq. cbn [world trace].
  destruct (answer _ (GenerateContent model (structured_prompt user_prompt)) w3)
    as [[text|e] w4]; cbn [fst snd];
    intros H; inversion H; subst; cbn; rewrite <- !app_assoc;
    eexists; (split; [reflexivity|]); repeat constructor.
Qed.

(** The executor begins by starting the driver. *)
Lemma run_plan_starts plan s r st' :
  run_plan plan s = (r, st') ->
  exists rs t, trace (snd st') = trace s ++ Ev PlaywrightStart rs :: t.
Proof.
  destruct (guarded_effect plan s) as (ra & st1 & st3 & mid & lines & Ha & Hg & X & _).
  rewrite (run_plan_release _ _ _ Hg). intros Hr.
  destruct (release_only _ _ _ Hr) as (_ & rel & T & _).
  destruct X as (_ & _ & _ & T3). rewrite T, T3.
  destruct (acquire_effect _ _ _ Ha)
    as (_ & [(e & _ & _ & _ & T1)|[(pw & e & _ & _ & _ & T1)|(pw & b & _ & _ & T1)]]);
    rewrite T1, <- !app_assoc; cbn [app]; eauto.
Qed.

Lemma execute_trace plan s :
  snd (execute_playwright_plan plan s) = snd (snd (run_plan plan s))
  /\ (forall e, fst (execute_playwright_plan plan s) = Raise e ->
                fst (run_plan plan s) = Raise e).
Proof.
  unfold App.execute_playwright_plan.
  destruct (run_plan plan s) as [[[]|e] [f s']]; cbn.
  - split; [reflexivity|]. intros; discriminate.
  - split; [reflexivity|]. intros e0 H; inversion H; reflexivity.
Qed.

(** C2 (as amended). An error of the first stage, raised by the
    configuration or by the translator call, is not caught: it reaches
    the caller and nothing has been yielded. Once the translator has
    answered, every error of decoding or of execution is caught and
    yielded as the final message: the orchestrator yields exactly two
    messages and ends normally. *)
Theorem errors_caught_after_translation :
  forall user_prompt w,
    let o := brain_orchestrator user_prompt w in
    match translate user_prompt {| world := w; trace := [] |} with
    | (Raise e, _) => propagated o = Some e /\ yielded o = []
    | (Ok text, s1) =>
        propagated o = None
        /\ exists final,
             yielded o = [progress_message text; final]
             /\ (forall e, json_loads text = Raise e -> final = caught_message text e)
             /\ (forall plan e,
                   json_loads text = Ok plan ->
                   fst (execute_playwright_plan plan s1) = Raise e ->
                   final = caught_message text e)
             /\ (forall plan log,
                   json_loads text = Ok plan ->
                   fst (execute_playwright_plan plan s1) = Ok log ->
                   final = log)
    end.
Proof.
  intros user_prompt w o. subst o. rewrite brain_orchestrator_eq.
  destruct (translate user_prompt {| world := w; trace := [] |}) as [[text|e] s1];
    [|split; reflexivity].
  destruct (json_loads text) as [plan|e].
  - destruct (execute_playwright_plan plan s1) as [[log|e] s2] eqn:Hx; cbn;
      (split; [reflexivity|]); eexists; (split; [reflexivity|]);
      (split; [intros; discriminate|]);
      split; intros plan0 x Hp He; inversion Hp; subst plan0;
      rewrite Hx in He; cbn in He; congruence.
  - cbn. split; [reflexivity|]. eexists; split; [reflexivity|].
    split; [intros e0 He; inversion He; reflexivity|].
    split; intros; discriminate.
Qed.

(** C3 (as amended). A text that is not valid JSON: the orchestrator
    ends with the decode error message, which carries the text; the
    executor is not run and no call reaches the browser driver. A text
    that [json.loads] accepts, array or not, is handed to the executor,
    which starts the driver. *)
Theorem undecodable_text_never_reaches_the_browser :
  forall user_prompt w text s1,
    translate user_prompt {| world := w; trace := [] |} = (Ok text, s1) ->
    (forall e,
       json_loads text = Raise e ->
       is_json_decode_error e = true ->
       brain_orchestrator user_prompt w =
         {| yielded := [progress_message text; decode_error_message text];
            propagated := None;
            calls := trace s1 |}
       /\ count is_browser_call (trace s1) = 0)
    /\ (forall plan,
          json_loads text = Ok plan ->
          exists rs t,
            calls (brain_orchestrator user_prompt w)
            = trace s1 ++ Ev PlaywrightStart rs :: t).
Proof.
  intros user_prompt w text s1 Ht. split.
  - intros e He Hd. rewrite brain_orchestrator_eq, Ht, He.
    unfold caught_message. rewrite Hd. split; [reflexivity|].
    destruct (translate_trace _ _ _ _ Ht) as (t & -> & Hb). cbn.
    now apply count_none.
  - intros plan Hp. rewrite brain_orchestrator_eq, Ht, Hp.
    destruct (execute_trace plan s1) as (Hs & _).
    destruct (run_plan plan s1) as [r st'] eqn:Hr.
    destruct (run_plan_starts _ _ _ _ Hr) as (rs & t & T). cbn [snd] in Hs.
    exists rs, t.
    destruct (execute_playwright_plan plan s1) as [[log|e] s2]; cbn in *;
      subst s2; exact T.
Qed.



(** ** More about the executor *)

Lemma step_request_page page step :
  Forall (fun r => request_page r = page) (step_request page step).
Proof.
  destruct step as [| | | | | |d]; cbn; try constructor.
  destruct (eq_str (dict_get d "action") "navigate"); [repeat constructor|].
  destruct (eq_str (dict_get d "action") "type"); [repeat constructor|].
  destruct (eq_str (dict_get d "action") "click"); [repeat constructor|].
  destruct (eq_str (dict_get d "action") "extract_text"); repeat constructor.
Qed.

Lemma step_request_length page step : length (step_request page step) <= 1.
Proof.
  destruct step as [| | | | | |d]; cbn; auto.
  destruct (eq_str (dict_get d "action") "navigate"); cbn; auto.
  destruct (eq_str (dict_get d "action") "type"); cbn; auto.
  destruct (eq_str (dict_get d "action") "click"); cbn; auto.
  destruct (eq_str (dict_get d "action") "extract_text"); cbn; auto.
Qed.

Lemma step_requests_length page steps :
  length (flat_map (step_request page) steps) <= length steps.
Proof.
  induction steps as [|x steps IH]; cbn; auto.
  rewrite length_app. pose proof (step_request_length page x). lia.
Qed.

Lemma step_requests_page page steps :
  Forall (fun r => request_page r = page) (flat_map (step_request page) steps).
Proof.
  induction steps as [|x steps IH]; cbn; [constructor|].
  apply Forall_app. split; auto using step_request_page.
Qed.

(** A page action is one request. *)
Lemma requests_length evs :
  all_page_actions evs -> length (requests evs) = length evs.
Proof.
  unfold requests. induction 1 as [|ev evs H _ IH]; cbn; auto.
  rewrite length_app, IH. destruct ev as [A c r]; destruct c; cbn in *;
    try discriminate; reflexivity.
Qed.

Lemma requests_on_session pw b page evs :
  all_page_actions evs ->
  Forall (fun r => request_page r = page) (requests evs) ->
  Forall (fun ev => on_session pw b page ev = true) evs.
Proof.
  unfold requests. induction 1 as [|ev evs H _ IH]; cbn; intros Hr; constructor.
  - destruct ev as [A c r]; destruct c; cbn in *; try discriminate;
      inversion Hr; subst; cbn in *; apply Nat.eqb_refl.
  - apply IH. apply Forall_app in Hr. tauto.
Qed.

(** The [try] block once the session is open and the plan can be
    iterated: the page calls of a prefix of the steps, then either the
    two closing lines and the pause, or the error line alone. *)
Lemma guarded_run plan s page st1 steps :
  acquire (init_frame, s) = (Ok page, st1) ->
  py_iter plan = Ok steps ->
  exists k evs lines st3 tail tail_lines,
    guarded plan (init_frame, s) = (Ok tt, st3)
    /\ extends st1 st3 (evs ++ tail) (lines ++ tail_lines)
    /\ all_page_actions evs
    /\ requests evs = flat_map (step_request page) (firstn k steps)
    /\ ((exists rp,
           tail = [Ev (PagePause page) rp]
           /\ tail_lines = [finished_line; close_line] ++ error_lines rp)
        \/ (exists e, tail = [] /\ tail_lines = [error_line e])).
Proof.
  intros Ha Hi.
  destruct (run_steps page steps st1) as [[c|e] st2] eqn:Hl;
    destruct (run_steps_effect _ _ _ _ _ Hl) as (k & evs & lines & X2 & P2 & R2).
  - destruct (guarded_loop_done _ _ _ _ _ _ _ Ha Hi Hl) as (rp & st3 & H & X3).
    exists k, evs, lines, st3, [Ev (PagePause page) rp],
      ([finished_line; close_line] ++ error_lines rp).
    split; [exact H|]. split; [eapply extends_trans; eauto|].
    split; [exact P2|]. split; [exact R2|]. left; eauto.
  - destruct (guarded_loop_raised _ _ _ _ _ _ _ Ha Hi Hl) as (st3 & H & X3).
    exists k, evs, lines, st3, [], [error_line e].
    split; [exact H|]. split; [eapply extends_trans; eauto|].
    split; [exact P2|]. split; [exact R2|]. right; eauto.
Qed.

(** The run once the session is open: the three calls that opened it,
    what the [try] block added, then the close of that browser and, if
    the close returned, the stop of that driver. *)
Lemma run_plan_open plan s page st1 st3 mid lines :
  acquire (init_frame, s) = (Ok page, st1) ->
  guarded plan (init_frame, s) = (Ok tt, st3) ->
  extends st1 st3 mid lines ->
  exists pw b r s' rel,
    trace (snd st1) =
      trace s ++ [Ev PlaywrightStart (Ok pw); Ev (Launch pw false) (Ok b);
                  Ev (NewPage b) (Ok page)]
    /\ results (fst st3) = lines
    /\ run_plan plan s = (r, (fst st3, s'))
    /\ trace s' = trace (snd st3) ++ rel
    /\ ((exists e, rel = [Ev (BrowserClose b) (Raise e)] /\ r = Raise e)
        \/ rel = [Ev (BrowserClose b) (Ok tt); Ev (PlaywrightStop pw) r]).
Proof.
  intros Ha Hg (P3 & B3 & L3 & _).
  rewrite (run_plan_release _ _ _ Hg).
  destruct (release st3) as [r [f s']] eqn:Hr.
  destruct (release_effect _ _ _ Hr) as (F & rel & T & S). cbn [fst snd] in *.
  destruct (acquire_effect _ _ _ Ha)
    as (R1 & [(e & E & _)|[(pw & e & E & _)|(pw & b & P1 & B1 & T1)]]);
    try discriminate.
  rewrite B3, P3, B1, P1 in S.
  exists pw, b, r, s', rel. subst f.
  split; [exact T1|]. split; [now rewrite L3, R1|].
  split; [reflexivity|]. split; [exact T|].
  destruct S as [(e & -> & ->)| ->]; [left; eauto|right; reflexivity].
Qed.

(** How many calls of each sort a run makes. *)
Lemma run_plan_counts plan s :
  exists r f s' t,
    run_plan plan s = (r, (f, s'))
    /\ trace s' = trace s ++ t
    /\ count is_start t = 1
    /\ count is_generate t = 0
    /\ count is_pause t <= 1
    /\ count is_page_action t
       <= match py_iter plan with Ok steps => length steps | Raise _ => 0 end.
Proof.
  destruct (acquire (init_frame, s)) as [[page|e] st1] eqn:Ha.
  - assert (exists st3 mid lines,
               guarded plan (init_frame, s) = (Ok tt, st3)
               /\ extends st1 st3 mid lines
               /\ count is_start mid = 0 /\ count is_generate mid = 0
               /\ count is_pause mid <= 1
               /\ count is_page_action mid
                  <= match py_iter plan with
                     | Ok steps => length steps
                     | Raise _ => 0
                     end) as (st3 & mid & lines & Hg & X & C1 & C2 & C3 & C4).
    { destruct (py_iter plan) as [steps|e] eqn:Hi.
      - destruct (guarded_run _ _ _ _ _ Ha Hi)
          as (k & evs & lines & st3 & tail & tl & Hg & X & P & R & Ht).
        exists st3, (evs ++ tail), (lines ++ tl).
        split; [exact Hg|]. split; [exact X|].
        assert (Hn : count is_page_action evs = length evs).
        { unfold count. clear - P. induction P as [|ev evs H _ IH]; cbn; auto.
          rewrite H. cbn. now rewrite IH. }
        assert (Hlen : length evs <= length steps).
        { rewrite <- (requests_length _ P), R.
          etransitivity; [apply step_requests_length|].
          rewrite length_firstn. apply Nat.le_min_r. }
        assert (Hz : forall p,
                   (forall ev, is_page_action ev = true -> p ev = false) ->
                   count p evs = 0).
        { intros p Hp. apply count_none. eapply Forall_impl; [|exact P]. exact Hp. }
        rewrite !count_app.
        rewrite (Hz is_start), (Hz is_generate), (Hz is_pause), Hn
          by (intros [? c ?]; destruct c; cbn; intros; try discriminate; reflexivity).
        destruct Ht as [(rp & -> & _)|(e & -> & _)]; cbn; repeat split; try lia.
      - destruct (guarded_not_iterable _ _ _ _ _ Ha Hi) as (st3 & Hg & X).
        exists st3, [], [error_line e].
        split; [exact Hg|]. split; [exact X|]. cbn. repeat split; lia. }
    destruct (run_plan_open _ _ _ _ _ _ _ Ha Hg X)
      as (pw & b & r & s' & rel & T1 & _ & Hr & T & S).
    destruct X as (_ & _ & _ & T3).
    exists r, (fst st3), s',
      ([Ev PlaywrightStart (Ok pw); Ev (Launch pw false) (Ok b); Ev (NewPage b) (Ok page)]
       ++ mid ++ rel).
    split; [exact Hr|]. split; [rewrite T, T3, T1, <- !app_assoc; reflexivity|].
    rewrite !count_app, C1, C2.
    destruct S as [(e & -> & _)| ->]; cbn; repeat split; lia.
  - destruct (guarded_not_acquired plan _ _ _ Ha) as (st3 & Hg & X).
    rewrite (run_plan_release _ _ _ Hg).
    destruct (release st3) as [r [f s']] eqn:Hr.
    destruct (release_effect _ _ _ Hr) as (_ & rel & T & S).
    destruct X as (P3 & B3 & _ & T3). rewrite B3, P3 in S. cbn [fst snd] in *.
    rewrite app_nil_r in T3.
    destruct (acquire_effect _ _ _ Ha)
      as (_ & [(e' & E & P1 & B1 & T1)|[(pw & e' & E & P1 & B1 & T1)|(pw & b & P1 & B1 & T1)]]);
      rewrite P1, B1 in S.
    + destruct S as [-> ->]. eexists _, f, s', _.
      split; [reflexivity|]. split; [rewrite T, T3, T1, app_nil_r; reflexivity|].
      cbn. repeat split; lia.
    + subst rel. eexists _, f, s', _.
      split; [reflexivity|]. split; [rewrite T, T3, T1, <- app_assoc; reflexivity|].
      cbn. repeat split; lia.
    + eexists _, f, s', _.
      split; [reflexivity|]. split; [rewrite T, T3, T1, <- app_assoc; reflexivity|].
      destruct S as [(e2 & -> & _)| ->]; cbn; repeat split; lia.
Qed.

Lemma release_shape_all_release (pw b : handle) (r : outcome unit) rel :
  (exists e, rel = [Ev (BrowserClose b) (Raise e)] /\ r = Raise e)
  \/ rel = [Ev (BrowserClose b) (Ok tt); Ev (PlaywrightStop pw) r] ->
  all_release rel.
Proof.
  intros [(e & -> & _)| ->]; repeat constructor.
Qed.

(** The run when the loop is left by an exception [e] in the state
    [st2]. *)
Lemma run_plan_loop_raised plan s page st1 steps e st2 :
  acquire (init_frame, s) = (Ok page, st1) ->
  py_iter plan = Ok steps ->
  run_steps page steps st1 = (Raise e, st2) ->
  exists r f s' rel,
    run_plan plan s = (r, (f, s'))
    /\ results f = results (fst st2) ++ [error_line e]
    /\ trace s' = trace (snd st2) ++ rel
    /\ all_release rel.
Proof.
  intros Ha Hi Hl.
  destruct (guarded_loop_raised _ _ _ _ _ _ _ Ha Hi Hl) as (st3 & Hg & X3).
  rewrite (run_plan_release _ _ _ Hg).
  destruct (release st3) as [r [f s']] eqn:Hr.
  destruct (release_only _ _ _ Hr) as (F & rel & T & R). cbn [fst snd] in *.
  exists r, f, s', rel. destruct X3 as (_ & _ & L3 & T3).
  rewrite app_nil_r in T3.
  split; [reflexivity|]. split; [subst f; now rewrite L3|].
  split; [now rewrite T, T3|exact R].
Qed.

Lemma run_step_not_dict page step st :
  is_dict step = false ->
  run_step page step st = (Raise (no_get_error step), st).
Proof. destruct step; try discriminate; reflexivity. Qed.

Lemma dict_get_missing d key : has_key d key = false -> dict_get d key = PNone.
Proof.
  unfold has_key, dict_get. induction d as [|kv d IH]; cbn; auto.
  destruct (String.eqb (fst kv) key); cbn; [discriminate|exact IH].
Qed.

(** ** Further properties of the executor *)

(** X7. A plan with nothing to iterate over (an empty array, an empty
    object, an empty string): once the session is open, no page call is
    made; the log is the two closing lines (and the error line if the
    pause raises) and the page is paused before the release. *)
Theorem empty_plan_parks :
  forall plan s page st1,
    acquire (init_frame, s) = (Ok page, st1) ->
    py_iter plan = Ok [] ->
    exists rp r f s' rel,
      run_plan plan s = (r, (f, s'))
      /\ results f = [finished_line; close_line] ++ error_lines rp
      /\ trace s' = trace (snd st1) ++ Ev (PagePause page) rp :: rel
      /\ all_release rel.
Proof.
  intros plan s page st1 Ha Hi.
  assert (Hl : run_steps page [] st1 = (Ok Next, st1)) by reflexivity.
  destruct (guarded_loop_done _ _ _ _ _ _ _ Ha Hi Hl) as (rp & st3 & Hg & X3).
  destruct (run_plan_open _ _ _ _ _ _ _ Ha Hg X3)
    as (pw & b & r & s' & rel & _ & L & Hr & T & S).
  exists rp, r, (fst st3), s', rel. destruct X3 as (_ & _ & _ & T3).
  split; [exact Hr|]. split; [exact L|].
  split; [rewrite T, T3, <- app_assoc; reflexivity|].
  exact (release_shape_all_release pw b r rel S).
Qed.

(** X8. A plan that is [None], a boolean or a number: the session is
    opened first, then the [for] statement raises the [TypeError] naming
    the type; the log is that one error line, no page call and no pause
    are made, and the session is released. *)
Theorem scalar_plan_is_not_iterable :
  forall plan s page st1,
    is_scalar plan = true ->
    acquire (init_frame, s) = (Ok page, st1) ->
    exists r f s' rel,
      run_plan plan s = (r, (f, s'))
      /\ results f = [error_line (not_iterable_error plan)]
      /\ trace s' = trace (snd st1) ++ rel
      /\ all_release rel.
Proof.
  intros plan s page st1 Hs Ha.
  assert (Hi : py_iter plan = Raise (not_iterable_error plan))
    by (destruct plan; try discriminate; reflexivity).
  destruct (guarded_not_iterable _ _ _ _ _ Ha Hi) as (st3 & Hg & X3).
  destruct (run_plan_open _ _ _ _ _ _ _ Ha Hg X3)
    as (pw & b & r & s' & rel & _ & L & Hr & T & S).
  exists r, (fst st3), s', rel. destruct X3 as (_ & _ & _ & T3).
  rewrite app_nil_r in T3.
  split; [exact Hr|]. split; [exact L|]. split; [now rewrite T, T3|].
  exact (release_shape_all_release pw b r rel S).
Qed.

(** X9. A plan that is a JSON object with at least one key: the loop
    takes the first key, a string, as its step, and the lookup of its
    action raises; the log is the one line saying that a str has no
    [get], and nothing is asked of the page. *)
Theorem object_plan_fails_on_first_key :
  forall key value d s page st1,
    acquire (init_frame, s) = (Ok page, st1) ->
    exists r f s' rel,
      run_plan (PDict ((key, value) :: d)) s = (r, (f, s'))
      /\ results f = ["An error occurred: 'str' object has no attribute 'get'"%string]
      /\ trace s' = trace (snd st1) ++ rel
      /\ all_release rel.
Proof.
  intros key value d s page st1 Ha.
  destruct (acquire_effect _ _ _ Ha) as (R1 & _).
  assert (Hl : run_steps page (PStr key :: map (fun kv => PStr (fst kv)) d) st1
               = (Raise (no_get_error (PStr key)), st1)).
  { rewrite run_steps_cons, run_step_not_dict; reflexivity. }
  destruct (run_plan_loop_raised (PDict ((key, value) :: d)) _ _ _ _ _ _
              Ha eq_refl Hl) as (r & f & s' & rel & Hr & L & T & R).
  exists r, f, s', rel. rewrite R1 in L. auto.
Qed.

(** X10. An element of the plan that is no JSON object (a number, a
    string, a list, ...), reached after the steps before it completed:
    the step raises the [AttributeError] naming its type without any
    call; the log is the earlier lines and that error line, and the
    elements after it are never run. *)
Theorem non_dict_step_aborts :
  forall plan pre step post s page st1 st2,
    py_iter plan = Ok (pre ++ step :: post) ->
    is_dict step = false ->
    acquire (init_frame, s) = (Ok page, st1) ->
    run_steps page pre st1 = (Ok Next, st2) ->
    exists r f s' rel,
      run_plan plan s = (r, (f, s'))
      /\ results f = results (fst st2) ++ [error_line (no_get_error step)]
      /\ trace s' = trace (snd st2) ++ rel
      /\ all_release rel.
Proof.
  intros plan pre step post s page st1 st2 Hi Hd Ha Hpre.
  eapply run_plan_loop_raised; eauto.
  rewrite (run_steps_app _ _ _ _ _ Hpre), run_steps_cons, run_step_not_dict; auto.
Qed.


(** X12. Fields the action does not have are read as [None] and passed
    on: a [navigate] without [url] calls [goto] with [None] and, if that
    returns, logs [Navigated to None]; an [end] without [message] logs
    [Task finished: None] and ends the loop; an object without [action]
    is skipped like an unknown kind. The executor itself raises for
    none of them. *)
Theorem missing_field_reads_none :
  forall page d st,
    let action := dict_get d "action" in
    (eq_str action "navigate" = true ->
     has_key d "url" = false ->
     logs_after answer (Goto page PNone) (fun _ => "Navigated to None"%string)
       st (run_step page (PDict d) st))
    /\ (eq_str action "end" = true ->
        has_key d "message" = false ->
        run_step page (PDict d) st =
          (Ok Break,
           ({| results := results (fst st) ++ ["Task finished: None"%string];
               playwright := playwright (fst st);
               browser := browser (fst st) |}, snd st)))
    /\ (has_key d "action" = false ->
        run_step page (PDict d) st = (Ok Next, st)).
Proof.
  intros page d st action. subst action. split; [|split].
  - intros E K. apply eq_str_true in E. apply dict_get_missing in K.
    unfold logs_after. rewrite run_step_dict. cbv zeta. rewrite E, K.
    cbn [eq_str String.eqb Ascii.eqb Bool.eqb App.py_str].
    match goal with
    | |- context [fst (?x st)] => destruct (x st) as [r st'] eqn:H
    end.
    apply (call_then_log _ (fun _ => _)) in H.
    destruct (fst (answer _ _ (world (snd st)))); exact H.
  - intros E K. apply dict_get_missing in K.
    destruct (run_step_end page (PDict d) st E) as (d' & D & ->).
    inversion D; subst d'. now rewrite K.
  - intros K. apply run_step_unknown. now rewrite (dict_get_missing _ _ K).
Qed.

(** X13. Whatever the plan and the world, the log is never empty and
    its last line tells how the run ended: it is the line asking to
    close the browser window, or an error line. *)
Theorem log_ends_with_outcome :
  forall plan s,
    exists r f s' before last,
      run_plan plan s = (r, (f, s'))
      /\ results f = before ++ [last]
      /\ (last = close_line \/ exists e, last = error_line e).
Proof.
  intros plan s.
  destruct (acquire (init_frame, s)) as [[page|e] st1] eqn:Ha.
  - assert (exists st3 mid lines before last,
               guarded plan (init_frame, s) = (Ok tt, st3)
               /\ extends st1 st3 mid lines
               /\ lines = before ++ [last]
               /\ (last = close_line \/ exists e, last = error_line e))
      as (st3 & mid & lines & before & last & Hg & X & L & O).
    { destruct (py_iter plan) as [steps|e] eqn:Hi.
      - destruct (guarded_run _ _ _ _ _ Ha Hi)
          as (k & evs & lines & st3 & tail & tl & Hg & X & _ & _ & Ht).
        destruct Ht as [(rp & _ & ->)|(e & _ & ->)].
        + destruct rp as [[]|e]; cbn [error_lines app] in *.
          * exists st3, (evs ++ tail), (lines ++ [finished_line; close_line]),
              (lines ++ [finished_line]), close_line.
            split; [exact Hg|]. split; [exact X|].
            split; [now rewrite <- app_assoc|now left].
          * exists st3, (evs ++ tail),
              (lines ++ [finished_line; close_line; error_line e]),
              (lines ++ [finished_line; close_line]), (error_line e).
            split; [exact Hg|]. split; [exact X|].
            split; [now rewrite <- app_assoc|right; eauto].
        + exists st3, (evs ++ tail), (lines ++ [error_line e]), lines, (error_line e).
          split; [exact Hg|]. split; [exact X|]. split; [reflexivity|right; eauto].
      - destruct (guarded_not_iterable _ _ _ _ _ Ha Hi) as (st3 & Hg & X).
        exists st3, [], [error_line e], [], (error_line e).
        split; [exact Hg|]. split; [exact X|]. split; [reflexivity|right; eauto]. }
    destruct (run_plan_open _ _ _ _ _ _ _ Ha Hg X)
      as (pw & b & r & s' & rel & _ & L' & Hr & _).
    exists r, (fst st3), s', before, last.
    split; [exact Hr|]. split; [now rewrite L', L|exact O].
  - destruct (guarded_not_acquired plan _ _ _ Ha) as (st3 & Hg & X).
    rewrite (run_plan_release _ _ _ Hg).
    destruct (release st3) as [r [f s']] eqn:Hr.
    destruct (release_only _ _ _ Hr) as (F & _). cbn [fst] in F.
    destruct (acquire_effect _ _ _ Ha) as (R1 & _).
    destruct X as (_ & _ & L & _). rewrite R1 in L.
    exists r, f, s', [], (error_line e).
    split; [reflexivity|]. split; [subst f; exact L|right; eauto].
Qed.

(** X14. Once the session is open, every later call of the run is made
    on its own handles: the page calls and the pause on the page that
    [new_page] returned, the close on the browser that [launch]
    returned, the stop on the driver that [start] returned; and the
    browser was launched with [headless=False]. *)
Theorem calls_stay_on_the_session :
  forall plan s page st1,
    acquire (init_frame, s) = (Ok page, st1) ->
    exists pw b r f s' rest,
      run_plan plan s = (r, (f, s'))
      /\ trace s' =
           trace s
           ++ [Ev PlaywrightStart (Ok pw); Ev (Launch pw false) (Ok b);
               Ev (NewPage b) (Ok page)]
           ++ rest
      /\ Forall (fun ev => on_session pw b page ev = true) rest.
Proof.
  intros plan s page st1 Ha.
  assert (exists st3 mid lines,
             guarded plan (init_frame, s) = (Ok tt, st3)
             /\ extends st1 st3 mid lines
             /\ forall pw b, Forall (fun ev => on_session pw b page ev = true) mid)
    as (st3 & mid & lines & Hg & X & Hmid).
  { destruct (py_iter plan) as [steps|e] eqn:Hi.
    - destruct (guarded_run _ _ _ _ _ Ha Hi)
        as (k & evs & lines & st3 & tail & tl & Hg & X & P & R & Ht).
      exists st3, (evs ++ tail), (lines ++ tl).
      split; [exact Hg|]. split; [exact X|]. intros pw b.
      apply Forall_app. split.
      + apply requests_on_session; auto. rewrite R. apply step_requests_page.
      + destruct Ht as [(rp & -> & _)|(e & -> & _)]; repeat constructor.
        cbn. apply Nat.eqb_refl.
    - destruct (guarded_not_iterable _ _ _ _ _ Ha Hi) as (st3 & Hg & X).
      exists st3, [], [error_line e].
      split; [exact Hg|]. split; [exact X|]. constructor. }
  destruct (run_plan_open _ _ _ _ _ _ _ Ha Hg X)
    as (pw & b & r & s' & rel & T1 & _ & Hr & T & S).
  destruct X as (_ & _ & _ & T3).
  exists pw, b, r, (fst st3), s', (mid ++ rel).
  split; [exact Hr|]. split; [rewrite T, T3, T1, <- !app_assoc; reflexivity|].
  apply Forall_app. split; [apply Hmid|].
  destruct S as [(e & -> & _)| ->]; repeat constructor; cbn; apply Nat.eqb_refl.
Qed.

(** X15. A run of a plan of [n] actions starts the driver once, makes
    at most [n] page calls and pauses the page at most once: no action
    is performed twice and nothing is retried. *)
Theorem call_bounds :
  forall steps s,
    exists r f s' t,
      run_plan (PList steps) s = (r, (f, s'))
      /\ trace s' = trace s ++ t
      /\ count is_start t = 1
      /\ count is_pause t <= 1
      /\ count is_page_action t <= length steps.
Proof.
  intros steps s.
  destruct (run_plan_counts (PList steps) s)
    as (r & f & s' & t & Hr & T & C1 & _ & C3 & C4).
  exists r, f, s', t. auto.
Qed.

(** ** Further properties of the orchestrator *)

(** The calls of the first stage, however it ends. *)
Lemma translate_counts user_prompt s r s1 :
  translate user_prompt s = (r, s1) ->
  exists t,
    trace s1 = trace s ++ t
    /\ count is_generate t <= 1
    /\ count is_start t = 0.
Proof.
  unfold translate_stage, configure_nlp_module, generate_automation_plan, bind, raise, ret.
  rewrite perform_eq.
  destruct (answer _ (Getenv "GEMINI_API_KEY") (world s)) as [[[key|]|e] w1];
    cbn [fst snd].
  2,3: intros H; inversion H; subst; cbn; eexists; split; [reflexivity|];
       cbn; split; auto.
  destruct key as [|a key].
  { intros H; inversion H; subst; cbn; eexists; split; [reflexivity|];
      cbn; split; auto. }
  rewrite perform_eq. cbn [world trace].
  destruct (answer _ (GenaiConfigure (String a key)) w1) as [[[]|e] w2]; cbn [fst snd].
  2:{ intros H; inversion H; subst; cbn. rewrite <- app_assoc.
      eexists; split; [reflexivity|]; cbn; split; auto. }
  rewrite perform_eq. cbn [world trace].
  destruct (answer _ (GenerativeModel "gemini-1.5-flash-latest") w2) as [[model|e] w3];
    cbn [fst snd].
  2:{ intros H; inversion H; subst; cbn. rewrite <- !app_assoc.
      eexists; split; [reflexivity|]; cbn; split; auto. }
  rewrite perform_eq. cbn [world trace].
  destruct (answer _ (GenerateContent model (structured_prompt user_prompt)) w3)
    as [[text|e] w4]; cbn [fst snd];
    intros H; inversion H; subst; cbn; rewrite <- !app_assoc;
    eexists; (split; [reflexivity|]); cbn; split; auto.
Qed.

(** X1. With no API key in the environment, or an empty one, whatever
    the instruction: the configuration raises its [ValueError], which
    reaches the caller of the orchestrator; nothing is yielded, and the
    reading of the environment is the only call made (the translator
    and the browser are never reached). *)
Theorem no_key_no_run :
  forall user_prompt w key w1,
    answer _ (Getenv "GEMINI_API_KEY") w = (Ok key, w1) ->
    key = None \/ key = Some ""%string ->
    brain_orchestrator user_prompt w =
      {| yielded := [];
         propagated := Some key_error;
         calls := [Ev (Getenv "GEMINI_API_KEY") (Ok key)] |}.
Proof.
  intros user_prompt w key w1 Hk Hnone. rewrite brain_orchestrator_eq.
  unfold translate_stage, configure_nlp_module, bind, raise.
  rewrite perform_eq. cbn [world trace]. rewrite Hk. cbn [fst snd].
  destruct Hnone as [-> | ->]; reflexivity.
Qed.

(** X2. When the first stage succeeds it has made exactly four calls,
    in this order: the reading of [GEMINI_API_KEY], which gave a
    non-empty key; [genai.configure] with that key; the construction of
    the model [gemini-1.5-flash-latest]; and one [generate_content] on
    that model with the prompt built from the instruction. What it
    returns is the translator's answer, cleaned. *)
Theorem first_stage_success :
  forall user_prompt s text s1,
    translate user_prompt s = (Ok text, s1) ->
    exists key model raw,
      key <> ""%string
      /\ trace s1 =
           trace s
           ++ [Ev (Getenv "GEMINI_API_KEY") (Ok (Some key));
               Ev (GenaiConfigure key) (Ok tt);
               Ev (GenerativeModel model_name) (Ok model);
               Ev (GenerateContent model (structured_prompt user_prompt)) (Ok raw)]
      /\ text = clean_plan_text raw.
Proof.
  intros user_prompt s text s1.
  unfold translate_stage, configure_nlp_module, generate_automation_plan, bind, raise, ret.
  rewrite perform_eq.
  destruct (answer _ (Getenv "GEMINI_API_KEY") (world s)) as [[[key|]|e] w1];
    cbn [fst snd]; try discriminate.
  destruct key as [|a key]; [discriminate|].
  rewrite perform_eq. cbn [world trace].
  destruct (answer _ (GenaiConfigure (String a key)) w1) as [[[]|e] w2]; cbn [fst snd];
    [|discriminate].
  rewrite perform_eq. cbn [world trace].
  destruct (answer _ (GenerativeModel "gemini-1.5-flash-latest") w2) as [[model|e] w3];
    cbn [fst snd]; [|discriminate].
  rewrite perform_eq. cbn [world trace].
  destruct (answer _ (GenerateContent model (structured_prompt user_prompt)) w3)
    as [[raw|e] w4]; cbn [fst snd]; [|discriminate].
  intros H; inversion H; subst. exists (String a key), model, raw.
  split; [discriminate|]. split; [|reflexivity].
  cbn. rewrite <- !app_assoc. reflexivity.
Qed.

(** X16. For every instruction and every world, one run of the
    orchestrator calls the translator at most once and starts the
    browser driver at most once, and it yields either nothing or
    exactly two messages, the first of which is the progress message
    showing the cleaned plan text. *)
Theorem orchestrator_calls_once :
  forall user_prompt w,
    let o := brain_orchestrator user_prompt w in
    count is_generate (calls o) <= 1
    /\ count is_start (calls o) <= 1
    /\ (yielded o = []
        \/ exists text final, yielded o = [progress_message text; final]).
Proof.
  intros user_prompt w o. subst o. rewrite brain_orchestrator_eq.
  destruct (translate user_prompt {| world := w; trace := [] |}) as [[text|e] s1] eqn:Ht;
    destruct (translate_counts _ _ _ _ Ht) as (t1 & T1 & G1 & S1); cbn [trace app] in T1.
  2:{ cbn [calls yielded]. rewrite T1, S1. repeat split; auto. }
  destruct (json_loads text) as [plan|e].
  2:{ cbn [calls yielded]. rewrite T1, S1. repeat split; eauto. }
  destruct (run_plan_counts plan s1) as (r & f & s' & t & Hr & T & C1 & C2 & _).
  destruct (execute_trace plan s1) as (Hs & _). rewrite Hr in Hs. cbn [snd] in Hs.
  destruct (execute_playwright_plan plan s1) as [[log|e] s2]; cbn [snd] in Hs;
    subst s2; cbn [calls yielded]; rewrite T, T1, !count_app, S1, C1, C2;
    (split; [lia|]); (split; [lia|]); right; eauto.
Qed.

(** X17. A text on which [json.loads] raises something other than a
    [JSONDecodeError]: the orchestrator ends with the execution error
    message carrying the text of that exception; the executor is not
    run and no call reaches the browser driver. *)
Theorem other_json_error_is_execution_error :
  forall user_prompt w text s1 e,
    translate user_prompt {| world := w; trace := [] |} = (Ok text, s1) ->
    json_loads text = Raise e ->
    is_json_decode_error e = false ->
    brain_orchestrator user_prompt w =
      {| yielded := [progress_message text; execution_error_message e];
         propagated := None;
         calls := trace s1 |}
    /\ count is_browser_call (trace s1) = 0.
Proof.
  intros user_prompt w text s1 e Ht He Hd.
  rewrite brain_orchestrator_eq, Ht, He. unfold caught_message. rewrite Hd.
  split; [reflexivity|].
  destruct (translate_trace _ _ _ _ Ht) as (t & -> & Hb). cbn.
  now apply count_none.
Qed.

(** X18. When the close of the browser raises in the [finally] block,
    the stop of the driver that follows it in the source is never
    called, and the function ends with an exception instead of
    returning its log. *)
Theorem close_failure_skips_stop :
  forall plan s,
    exists r f s' t,
      run_plan plan s = (r, (f, s'))
      /\ trace s' = trace s ++ t
      /\ (count (failed is_close) t = 1 ->
          count is_stop t = 0
          /\ exists e,
               r = Raise e
               /\ fst (execute_playwright_plan plan s) = Raise e).
Proof.
  intros plan s.
  destruct (guarded_effect plan s)
    as (ra & st1 & st3 & mid & lines & Ha & Hg & X & M & Mnil).
  unfold App.execute_playwright_plan. rewrite (run_plan_release _ _ _ Hg).
  destruct (release st3) as [r [f s']] eqn:Hr.
  destruct (release_effect _ _ _ Hr) as (_ & rel & T & S).
  destruct X as (P3 & B3 & _ & T3). rewrite B3, P3 in S. cbn [fst snd] in *.
  destruct (acquire_effect _ _ _ Ha)
    as (_ & [(e & E & P1 & B1 & T1)|[(pw & e & E & P1 & B1 & T1)|(pw & b & P1 & B1 & T1)]]);
    rewrite P1, B1 in S.
  - destruct S as [-> ->]. rewrite (Mnil _ E) in *.
    exists (Ok tt), f, s', [Ev PlaywrightStart (Raise e)].
    split; [reflexivity|].
    split; [rewrite T, T3, T1, !app_nil_r; reflexivity|].
    cbn. discriminate.
  - subst rel. rewrite (Mnil _ E) in *.
    exists r, f, s',
      [Ev PlaywrightStart (Ok pw); Ev (Launch pw false) (Raise e);
       Ev (PlaywrightStop pw) r].
    split; [reflexivity|].
    split; [rewrite T, T3, T1, !app_nil_r, <- app_assoc; reflexivity|].
    destruct r; cbn; discriminate.
  - exists r, f, s',
      ([Ev PlaywrightStart (Ok pw); Ev (Launch pw false) (Ok b); Ev (NewPage b) ra]
       ++ mid ++ rel).
    split; [reflexivity|].
    split; [rewrite T, T3, T1, <- !app_assoc; reflexivity|].
    rewrite !count_app. count_mid_zero M.
    destruct S as [(e & -> & ->)| ->].
    + intros _. cbn. split; [reflexivity|]. eauto.
    + destruct ra, r; cbn; discriminate.
Qed.

End Properties.

(** ** Cleaning a fenced answer *)

Lemma string_app_nil_r (a : string) : (a ++ "")%string = a.
Proof. induction a as [|c a IH]; cbn; congruence. Qed.

Lemma string_app_assoc (a b c : string) :
  ((a ++ b) ++ c)%string = (a ++ (b ++ c))%string.
Proof. induction a as [|x a IH]; cbn; congruence. Qed.

Lemma rev_string_app a b : rev_string (a ++ b) = (rev_string b ++ rev_string a)%string.
Proof.
  induction a as [|c a IH]; cbn.
  - now rewrite string_app_nil_r.
  - now rewrite IH, string_app_assoc.
Qed.

Lemma rev_string_involutive s : rev_string (rev_string s) = s.
Proof.
  induction s as [|c s IH]; cbn; auto.
  now rewrite rev_string_app, IH.
Qed.

Lemma has_backtick_app a b :
  has_backtick (a ++ b) = has_backtick a || has_backtick b.
Proof. induction a as [|c a IH]; cbn; auto. now rewrite IH, orb_assoc. Qed.

(** Text without a backtick is copied by a replacement whose pattern
    starts with one. *)
Lemma replace_from_plain old' new body tail :
  has_backtick body = false ->
  replace_from 0 (String "`" old') new (body ++ tail)
  = (body ++ replace_from 0 (String "`" old') new tail)%string.
Proof.
  induction body as [|c body IH]; cbn [has_backtick append]; intros H; auto.
  apply orb_false_elim in H. destruct H as [Hc Hb].
  cbn [replace_from prefix].
  destruct (ascii_dec "`" c) as [E|_].
  - subst c. discriminate.
  - now rewrite IH.
Qed.

(** X6. An answer wrapped in a [json] fence, with no backtick inside,
    is cleaned to what the fence holds, between the two newlines that
    followed and preceded the fence markers. *)
Lemma clean_plan_text_fenced body :
  has_backtick body = false ->
  clean_plan_text ("```json" ++ nl ++ body ++ nl ++ "```")
  = (nl ++ body ++ nl)%string.
Proof.
  intros H. unfold clean_plan_text.
  assert (Hs : strip ("```json" ++ nl ++ body ++ nl ++ "```")
               = ("```json" ++ nl ++ body ++ nl ++ "```")%string).
  { unfold strip, rstrip.
    replace (lstrip ("```json" ++ nl ++ body ++ nl ++ "```"))
      with ("```json" ++ nl ++ body ++ nl ++ "```")%string by reflexivity.
    assert (Hr : exists r',
               rev_string ("```json" ++ nl ++ body ++ nl ++ "```") = String "`" r').
    { rewrite <- !string_app_assoc, rev_string_app. cbn. eauto. }
    destruct Hr as (r' & Hr). rewrite Hr.
    replace (rstrip_rev 0 (String "`" r')) with (String "`" r') by reflexivity.
    rewrite <- Hr. apply rev_string_involutive. }
  rewrite Hs.
  assert (Hp : has_backtick (nl ++ body ++ nl) = false).
  { rewrite !has_backtick_app, H. reflexivity. }
  replace (replace "```json" "" ("```json" ++ nl ++ body ++ nl ++ "```"))
    with (replace "```json" "" ((nl ++ body ++ nl) ++ "```"))
    by (rewrite !string_app_assoc; reflexivity).
  unfold replace. rewrite (replace_from_plain _ _ _ _ Hp).
  replace (replace_from 0 "```json" "" "```") with "```"%string by reflexivity.
  rewrite (replace_from_plain _ _ _ _ Hp).
  replace (replace_from 0 "```" "" "```") with ""%string by reflexivity.
  now rewrite string_app_nil_r, ?string_app_assoc.
Qed.

(** ** Further properties of the cleaning and of the prompt *)

Lemma prefix_nil s : prefix "" s = true.
Proof. destruct s; reflexivity. Qed.

Lemma prefix_backtick_cons p c s :
  prefix (String "`" p) (String c s)
  = if Ascii.eqb c "`" then prefix p s else false.
Proof.
  cbn [prefix]. destruct (ascii_dec "`" c) as [<-|N]; [reflexivity|].
  destruct (Ascii.eqb_spec c "`"); [subst; contradiction|reflexivity].
Qed.

Lemma prefix2_of_prefix1 s : prefix "`" s = false -> prefix "``" s = false.
Proof.
  destruct s as [|c s]; [reflexivity|]. rewrite !prefix_backtick_cons.
  destruct (Ascii.eqb c "`"); [|reflexivity]. rewrite prefix_nil. discriminate.
Qed.

(** The replacement of the fence starts with two backticks only if the
    text did. *)
Lemma replace_fence_head s :
  prefix "``" s = false ->
  prefix "``" (replace_from 0 "```" "" s) = false.
Proof.
  destruct s as [|a s]; [reflexivity|]. cbn [replace_from].
  rewrite !prefix_backtick_cons.
  destruct (Ascii.eqb a "`") eqn:Ea.
  - intros H. rewrite (prefix2_of_prefix1 _ H).
    rewrite prefix_backtick_cons, Ea.
    destruct s as [|b s]; [reflexivity|]. cbn [replace_from].
    rewrite !prefix_backtick_cons in *.
    destruct (Ascii.eqb b "`") eqn:Eb.
    + rewrite prefix_nil in H. discriminate.
    + now rewrite prefix_backtick_cons, Eb.
  - intros _. now rewrite prefix_backtick_cons, Ea.
Qed.

Lemma replace_fence_no_fence s :
  forall skip, occurs "```" (replace_from skip "```" "" s) = false.
Proof.
  induction s as [|c s IH]; intros skip; [reflexivity|].
  cbn [replace_from]. destruct skip as [|k]; [|apply IH].
  destruct (prefix "```" (String c s)) eqn:Hp.
  - cbn [append]. apply IH.
  - cbn [occurs]. rewrite IH, orb_false_r.
    rewrite prefix_backtick_cons in *.
    destruct (Ascii.eqb c "`"); [|reflexivity].
    now apply replace_fence_head.
Qed.

(** X4. Whatever the translator answers, the cleaned text holds no
    fence marker: three backticks in a row never reach [json.loads]. *)
Theorem cleaned_text_has_no_fence :
  forall text, occurs "```" (clean_plan_text text) = false.
Proof.
  intros text. unfold clean_plan_text, replace. apply replace_fence_no_fence.
Qed.

Lemma lstrip_plain s : leading_space s = 0 -> lstrip s = s.
Proof.
  unfold lstrip. destruct s as [|c s]; [reflexivity|].
  cbn [lstrip_from]. now intros ->.
Qed.

Lemma rstrip_plain s : trailing_space (rev_string s) = 0 -> rstrip s = s.
Proof.
  unfold rstrip. intros H.
  replace (rstrip_rev 0 (rev_string s)) with (rev_string s).
  - apply rev_string_involutive.
  - destruct (rev_string s) as [|c r]; [reflexivity|].
    cbn [rstrip_rev]. now rewrite H.
Qed.

(** X5. A text with no backtick that neither starts nor ends with
    whitespace, such as a bare JSON array, is left as it is by the
    cleaning. *)
Theorem clean_plan_text_plain :
  forall text,
    has_backtick text = false ->
    leading_space text = 0 ->
    trailing_space (rev_string text) = 0 ->
    clean_plan_text text = text.
Proof.
  intros text Hb Hl Hr. unfold clean_plan_text, strip.
  rewrite (lstrip_plain _ Hl), (rstrip_plain _ Hr). unfold replace.
  rewrite <- (string_app_nil_r text) at 1 2.
  rewrite (replace_from_plain _ _ _ _ Hb).
  replace (replace_from 0 "```json" "" "") with ""%string by reflexivity.
  rewrite (replace_from_plain _ _ _ _ Hb).
  replace (replace_from 0 "```" "" "") with ""%string by reflexivity.
  reflexivity.
Qed.

Lemma string_app_inv_head (a x y : string) :
  (a ++ x)%string = (a ++ y)%string -> x = y.
Proof. induction a as [|c a IH]; cbn; intros H; [exact H|]. inversion H. auto. Qed.

Lemma string_length_app (a b : string) :
  String.length (a ++ b) = String.length a + String.length b.
Proof. induction a as [|c a IH]; cbn; auto. Qed.

Lemma string_app_inv_tail (x y b : string) :
  (x ++ b)%string = (y ++ b)%string -> x = y.
Proof.
  revert y. induction x as [|c x IH]; intros y H.
  - destruct y as [|d y]; [reflexivity|].
    apply (f_equal String.length) in H. cbn in H.
    rewrite string_length_app in H. lia.
  - destruct y as [|d y].
    + apply (f_equal String.length) in H. cbn in H.
      rewrite string_length_app in H. lia.
    + cbn in H. inversion H. f_equal. auto.
Qed.

(** X3. The prompt sent to the translator determines the instruction:
    two instructions with the same prompt are the same instruction, so
    the template neither drops nor merges any part of what the user
    wrote. *)
Theorem structured_prompt_injective :
  forall p1 p2, structured_prompt p1 = structured_prompt p2 -> p1 = p2.
Proof.
  intros p1 p2 H. unfold structured_prompt in H.
  repeat match type of H with
    | (?a ++ _)%string = (?a ++ _)%string => apply string_app_inv_head in H
    end.
  now apply string_app_inv_tail in H.
Qed.

(** * Examples

    The theorems at concrete plans and worlds, and the inputs at which
    the statements that had to be amended fail as they were written. *)

(** A step that raises, after one that completed. *)
Lemma first_step_error_witness :
  let st1 := snd (acquire clicks_time_out (init_frame, fresh)) in
  let st2 := snd (run_steps clicks_time_out sample_repr 2 [navigate_example] st1) in
  let st3 := snd (run_step clicks_time_out sample_repr 2 click_missing st2) in
  acquire clicks_time_out (init_frame, fresh) = (Ok 2, st1)
  /\ run_steps clicks_time_out sample_repr 2 [navigate_example] st1 = (Ok Next, st2)
  /\ run_step clicks_time_out sample_repr 2 click_missing st2 = (Raise timeout_error, st3)
  /\ exists r f s' rel earlier lines,
       run_plan clicks_time_out sample_repr
         (PList ([navigate_example] ++ click_missing :: [end_done])) fresh
       = (r, (f, s'))
       /\ extends st1 st2 earlier lines
       /\ requests earlier = flat_map (step_request 2) [navigate_example]
       /\ results f = results (fst st2) ++ [error_line timeout_error]
       /\ (trace (snd st3) = trace (snd st2)
           \/ exists A (c : call A),
                trace (snd st3) = trace (snd st2) ++ [Ev c (Raise timeout_error)])
       /\ trace s' = trace (snd st3) ++ rel
       /\ all_release rel.
Proof.
  cbv zeta.
  assert (H1 : acquire clicks_time_out (init_frame, fresh)
               = (Ok 2, snd (acquire clicks_time_out (init_frame, fresh))))
    by (vm_compute; reflexivity).
  assert (H2 : run_steps clicks_time_out sample_repr 2 [navigate_example]
                 (snd (acquire clicks_time_out (init_frame, fresh)))
               = (Ok Next,
                  snd (run_steps clicks_time_out sample_repr 2 [navigate_example]
                         (snd (acquire clicks_time_out (init_frame, fresh))))))
    by (vm_compute; reflexivity).
  assert (H3 : run_step clicks_time_out sample_repr 2 click_missing
                 (snd (run_steps clicks_time_out sample_repr 2 [navigate_example]
                         (snd (acquire clicks_time_out (init_frame, fresh)))))
               = (Raise timeout_error,
                  snd (run_step clicks_time_out sample_repr 2 click_missing
                         (snd (run_steps clicks_time_out sample_repr 2 [navigate_example]
                                 (snd (acquire clicks_time_out (init_frame, fresh))))))))
    by (vm_compute; reflexivity).
  refine (conj H1 (conj H2 (conj H3 _))).
  exact (first_step_error_aborts_plan clicks_time_out sample_repr
           [navigate_example] click_missing [end_done] fresh 2 _ _ _ _ H1 H2 H3).
Defined.

(** An action of kind [scroll]. *)
Lemma unknown_kind_witness :
  in_vocabulary (dict_get [("action", PStr "scroll"); ("selector", PStr "body")] "action")
  = false
  /\ run_plan calm sample_repr (PList ([navigate_example] ++ scroll_down :: [end_done])) fresh
     = run_plan calm sample_repr (PList ([navigate_example] ++ [end_done])) fresh.
Proof.
  split; [reflexivity|].
  exact (proj2 (proj2 (unknown_kind_is_skipped calm sample_repr
                         [("action", PStr "scroll"); ("selector", PStr "body")]
                         eq_refl))
           [navigate_example] [end_done] fresh).
Defined.

(** An [end] at index 1, with a click after it. *)
Lemma end_stops_the_plan_witness :
  let plan := [navigate_example; end_done; click_missing] in
  let st1 := snd (acquire calm (init_frame, fresh)) in
  let st2 := snd (run_steps calm sample_repr 2 (firstn 1 plan) st1) in
  nth_error plan 1 = Some end_done
  /\ is_end end_done = true
  /\ acquire calm (init_frame, fresh) = (Ok 2, st1)
  /\ run_steps calm sample_repr 2 (firstn 1 plan) st1 = (Ok Next, st2)
  /\ run_plan calm sample_repr (PList plan) fresh
     = run_plan calm sample_repr (PList (firstn 2 plan)) fresh
  /\ exists d rp r f s' rel,
       end_done = PDict d
       /\ run_plan calm sample_repr (PList plan) fresh = (r, (f, s'))
       /\ results f =
            results (fst st2)
            ++ [("Task finished: " ++ py_str sample_repr (dict_get d "message"))%string;
                finished_line; close_line]
            ++ error_lines rp
       /\ trace s' = trace (snd st2) ++ Ev (PagePause 2) rp :: rel
       /\ all_release rel.
Proof.
  cbv zeta.
  pose proof (end_stops_the_plan calm sample_repr
                [navigate_example; end_done; click_missing] 1 end_done
                eq_refl eq_refl) as (A & _ & C).
  assert (H1 : acquire calm (init_frame, fresh)
               = (Ok 2, snd (acquire calm (init_frame, fresh))))
    by (vm_compute; reflexivity).
  assert (H2 : run_steps calm sample_repr 2
                 (firstn 1 [navigate_example; end_done; click_missing])
                 (snd (acquire calm (init_frame, fresh)))
               = (Ok Next,
                  snd (run_steps calm sample_repr 2
                         (firstn 1 [navigate_example; end_done; click_missing])
                         (snd (acquire calm (init_frame, fresh))))))
    by (vm_compute; reflexivity).
  refine (conj eq_refl (conj eq_refl (conj H1 (conj H2 (conj (A fresh) _))))).
  exact (C fresh 2 _ _ H1 H2).
Defined.

(** Scenario A as it stands. *)
Lemma scenario_A_witness :
  let st1 := snd (acquire calm (init_frame, fresh)) in
  acquire calm (init_frame, fresh) = (Ok 2, st1)
  /\ fst (calm unit (Goto 2 (PStr "https://example.com")) (world (snd st1))) = Ok tt
  /\ exists rp r f s' rel,
       run_plan calm sample_repr plan_A fresh = (r, (f, s'))
       /\ results f =
            ["Navigated to https://example.com"%string;
             "Task finished: done"%string;
             finished_line; close_line] ++ error_lines rp
       /\ trace s' =
            trace (snd st1)
            ++ [Ev (Goto 2 (PStr "https://example.com")) (Ok tt);
                Ev (PagePause 2) rp] ++ rel
       /\ all_release rel.
Proof.
  cbv zeta.
  assert (H1 : acquire calm (init_frame, fresh)
               = (Ok 2, snd (acquire calm (init_frame, fresh))))
    by (vm_compute; reflexivity).
  refine (conj H1 (conj eq_refl _)).
  exact (scenario_A_log calm sample_repr [] fresh 2 _ H1 eq_refl).
Defined.

(** Scenario A ends by [break]: the page is paused before the close. *)
Lemma pause_after_a_clean_loop_witness :
  let st1 := snd (acquire calm (init_frame, fresh)) in
  let st2 := snd (run_steps calm sample_repr 2 [navigate_example; end_done] st1) in
  acquire calm (init_frame, fresh) = (Ok 2, st1)
  /\ py_iter plan_A = Ok [navigate_example; end_done]
  /\ run_steps calm sample_repr 2 [navigate_example; end_done] st1 = (Ok Break, st2)
  /\ exists rp r f s' b rc rel,
       run_plan calm sample_repr plan_A fresh = (r, (f, s'))
       /\ results f =
            results (fst st2) ++ [finished_line; close_line] ++ error_lines rp
       /\ trace s' =
            trace (snd st2)
            ++ Ev (PagePause 2) rp :: Ev (BrowserClose b) rc :: rel
       /\ all_release rel.
Proof.
  cbv zeta.
  assert (H1 : acquire calm (init_frame, fresh)
               = (Ok 2, snd (acquire calm (init_frame, fresh))))
    by (vm_compute; reflexivity).
  assert (H3 : run_steps calm sample_repr 2 [navigate_example; end_done]
                 (snd (acquire calm (init_frame, fresh)))
               = (Ok Break,
                  snd (run_steps calm sample_repr 2 [navigate_example; end_done]
                         (snd (acquire calm (init_frame, fresh))))))
    by (vm_compute; reflexivity).
  refine (conj H1 (conj eq_refl (conj H3 _))).
  exact (proj1 (pause_only_after_a_clean_loop calm sample_repr plan_A
                  [navigate_example; end_done] fresh 2 _ H1 eq_refl)
           Break _ H3).
Defined.

(** The accounting of scenario A. *)
Lemma session_accounting_witness :
  exists r f s' body rel,
    run_plan calm sample_repr plan_A fresh = (r, (f, s'))
    /\ trace s' = trace fresh ++ body ++ rel
    /\ Forall (fun ev => is_release ev = false) body
    /\ all_release rel
    /\ count is_start body = 1
    /\ count is_launch body <= 1
    /\ count is_new_page body <= 1
    /\ count is_launch body = count (succeeded is_start) body
    /\ count is_new_page body = count (succeeded is_launch) body
    /\ count (succeeded is_new_page) body <= 1
    /\ count is_close rel = count (succeeded is_launch) body
    /\ (count (succeeded is_new_page) body = 1 -> count is_close rel = 1)
    /\ count is_stop rel <= count (succeeded is_start) body
    /\ (count (failed is_close) rel = 0 ->
        count is_stop rel = count (succeeded is_start) body).
Proof.
  exact (session_accounting calm sample_repr plan_A fresh).
Defined.

(** A plan whose click times out: the function returns its log. *)
Lemma total_unless_release_raises_witness :
  exists st3 r f s' t,
    try_except (try_body clicks_time_out sample_repr (PList [click_missing])) on_error
      (init_frame, fresh) = (Ok tt, st3)
    /\ run_plan clicks_time_out sample_repr (PList [click_missing]) fresh = (r, (f, s'))
    /\ trace s' = trace fresh ++ t
    /\ (Forall (fun ev => is_release ev = true -> raised ev = false) t ->
        execute_playwright_plan clicks_time_out sample_repr (PList [click_missing]) fresh
        = (Ok (join nl (results f)), s'))
    /\ (forall e,
          fst (execute_playwright_plan clicks_time_out sample_repr
                 (PList [click_missing]) fresh) = Raise e ->
          exists A (c : call A),
            In (Ev c (Raise e)) t /\ is_release (Ev c (Raise e)) = true).
Proof.
  exact (total_unless_release_raises clicks_time_out sample_repr
           (PList [click_missing]) fresh).
Defined.

(** The translator answers [not-json]. *)
Lemma errors_caught_witness :
  let o := brain_orchestrator (answers "not-json") sample_repr sample_json_loads
             "Open example.com" 0 in
  match translate_stage (answers "not-json") "Open example.com" fresh with
  | (Raise e, _) => propagated o = Some e /\ yielded o = []
  | (Ok text, s1) =>
      propagated o = None
      /\ exists final,
           yielded o = [progress_message text; final]
           /\ (forall e, sample_json_loads text = Raise e -> final = caught_message text e)
           /\ (forall plan e,
                 sample_json_loads text = Ok plan ->
                 fst (execute_playwright_plan (answers "not-json") sample_repr plan s1)
                 = Raise e ->
                 final = caught_message text e)
           /\ (forall plan log,
                 sample_json_loads text = Ok plan ->
                 fst (execute_playwright_plan (answers "not-json") sample_repr plan s1)
                 = Ok log ->
                 final = log)
  end.
Proof.
  exact (errors_caught_after_translation (answers "not-json") sample_repr
           sample_json_loads "Open example.com" 0).
Defined.

(** Scenario B: [not-json]. *)
Lemma undecodable_text_witness :
  let s1 := snd (translate_stage (answers "not-json") "Open example.com" fresh) in
  let e := mk_exn JSONDecodeError "Expecting value: line 1 column 1 (char 0)" in
  translate_stage (answers "not-json") "Open example.com" fresh = (Ok "not-json"%string, s1)
  /\ sample_json_loads "not-json" = Raise e
  /\ is_json_decode_error e = true
  /\ brain_orchestrator (answers "not-json") sample_repr sample_json_loads
       "Open example.com" 0
     = {| yielded := [progress_message "not-json"; decode_error_message "not-json"];
          propagated := None;
          calls := trace s1 |}
  /\ count is_browser_call (trace s1) = 0.
Proof.
  cbv zeta.
  assert (H1 : translate_stage (answers "not-json") "Open example.com" fresh
               = (Ok "not-json"%string,
                  snd (translate_stage (answers "not-json") "Open example.com" fresh)))
    by (vm_compute; reflexivity).
  refine (conj H1 (conj eq_refl (conj eq_refl _))).
  exact (proj1 (undecodable_text_never_reaches_the_browser (answers "not-json")
                  sample_repr sample_json_loads "Open example.com" 0 _ _ H1)
           _ eq_refl eq_refl).
Defined.


(** ** Where the statements fail as written *)

(** C1 as stated fails here: the session is open, the click raises, and
    the run ends with the error line alone, the page never paused. *)
Lemma pause_skipped_after_step_error :
  let r := run_plan clicks_time_out sample_repr (PList [click_missing]) fresh in
  fst (acquire clicks_time_out (init_frame, fresh)) = Ok 2
  /\ results (fst (snd r)) = ["An error occurred: Timeout 30000ms exceeded."%string]
  /\ count is_pause (trace (snd (snd r))) = 0
  /\ count is_close (trace (snd (snd r))) = 1.
Proof. vm_compute. repeat split; reflexivity. Qed.

(** C2 as stated fails here: with no API key in the environment the
    [ValueError] of the configuration reaches the caller, and nothing is
    yielded. *)
Lemma missing_api_key_propagates :
  brain_orchestrator no_key sample_repr sample_json_loads "Open example.com" 0
  = {| yielded := [];
       propagated :=
         Some (mk_exn ValueError
                 "Gemini API key not found. Please set it in the .env file.");
       calls := [Ev (Getenv "GEMINI_API_KEY") (Ok None)] |}.
Proof. vm_compute. reflexivity. Qed.

(** C3 as stated fails here: [42] is valid JSON and not an array; the
    executor is run on it, opens a session, and its log is the final
    message. *)
Lemma number_reaches_the_executor :
  let o := brain_orchestrator (answers "42") sample_repr sample_json_loads
             "Open example.com" 0 in
  sample_json_loads "42" = Ok (PInt 42)
  /\ yielded o = [progress_message "42";
                  "An error occurred: 'int' object is not iterable"%string]
  /\ propagated o = None
  /\ count (succeeded is_new_page) (calls o) = 1.
Proof. vm_compute. repeat split; reflexivity. Qed.

(** C4 as stated fails here: the plan has an [end] at index 1, the click
    before it raises, and the message of the [end] is never logged. *)
Lemma end_not_reached_after_error :
  let plan := [click_missing; end_done] in
  nth_error plan 1 = Some end_done
  /\ is_end end_done = true
  /\ results (fst (snd (run_plan clicks_time_out sample_repr (PList plan) fresh)))
     = ["An error occurred: Timeout 30000ms exceeded."%string].
Proof. vm_compute. repeat split; reflexivity. Qed.

(** C5 as stated fails here: the driver does not start, so no session is
    acquired and nothing is released. *)
Lemma no_session_when_start_fails :
  let t := trace (snd (snd (run_plan driver_missing sample_repr plan_A fresh))) in
  count is_start t = 1
  /\ count (succeeded is_new_page) t = 0
  /\ count is_close t = 0
  /\ count is_stop t = 0.
Proof. vm_compute. repeat split; reflexivity. Qed.

(** C10 as stated fails here: the close of the browser raises in the
    [finally] block and the exception leaves the function. *)
Lemma close_error_escapes :
  fst (execute_playwright_plan close_breaks sample_repr plan_A fresh)
  = Raise closed_error.
Proof. vm_compute. reflexivity. Qed.

(** ** The further properties at concrete inputs *)

(** No key in the environment. *)
Lemma no_key_no_run_witness :
  no_key _ (Getenv "GEMINI_API_KEY") 0 = (Ok None, 1)
  /\ brain_orchestrator no_key sample_repr sample_json_loads "Open example.com" 0
     = {| yielded := [];
          propagated := Some key_error;
          calls := [Ev (Getenv "GEMINI_API_KEY") (Ok None)] |}.
Proof.
  split; [reflexivity|].
  exact (no_key_no_run no_key sample_repr sample_json_loads "Open example.com"
           0 None 1 eq_refl (or_introl eq_refl)).
Defined.

(** The first stage in the calm world. *)
Lemma first_stage_success_witness :
  let s1 := snd (translate_stage calm "Open example.com" fresh) in
  translate_stage calm "Open example.com" fresh = (Ok text_A, s1)
  /\ exists key model raw,
       key <> ""%string
       /\ trace s1 =
            trace fresh
            ++ [Ev (Getenv "GEMINI_API_KEY") (Ok (Some key));
                Ev (GenaiConfigure key) (Ok tt);
                Ev (GenerativeModel model_name) (Ok model);
                Ev (GenerateContent model (structured_prompt "Open example.com")) (Ok raw)]
       /\ text_A = clean_plan_text raw.
Proof.
  cbv zeta.
  assert (H1 : translate_stage calm "Open example.com" fresh
               = (Ok text_A, snd (translate_stage calm "Open example.com" fresh)))
    by (vm_compute; reflexivity).
  refine (conj H1 _).
  exact (first_stage_success calm "Open example.com" fresh _ _ H1).
Defined.

Lemma structured_prompt_injective_witness :
  structured_prompt "Open example.com" = structured_prompt "Open example.com"
  /\ "Open example.com"%string = "Open example.com"%string.
Proof.
  split; [reflexivity|].
  exact (structured_prompt_injective _ _ eq_refl).
Defined.

(** The text of scenario A is left as it is. *)
Lemma clean_plan_text_plain_witness :
  has_backtick text_A = false
  /\ leading_space text_A = 0
  /\ trailing_space (rev_string text_A) = 0
  /\ clean_plan_text text_A = text_A.
Proof.
  refine (conj eq_refl (conj eq_refl (conj eq_refl _))).
  exact (clean_plan_text_plain text_A eq_refl eq_refl eq_refl).
Defined.

(** The text of scenario A inside a fence. *)
Lemma clean_plan_text_fenced_witness :
  has_backtick text_A = false
  /\ clean_plan_text ("```json" ++ nl ++ text_A ++ nl ++ "```")
     = (nl ++ text_A ++ nl)%string.
Proof.
  split; [reflexivity|].
  exact (clean_plan_text_fenced text_A eq_refl).
Defined.

(** An empty array. *)
Lemma empty_plan_parks_witness :
  let st1 := snd (acquire calm (init_frame, fresh)) in
  acquire calm (init_frame, fresh) = (Ok 2, st1)
  /\ py_iter (PList []) = Ok []
  /\ exists rp r f s' rel,
       run_plan calm sample_repr (PList []) fresh = (r, (f, s'))
       /\ results f = [finished_line; close_line] ++ error_lines rp
       /\ trace s' = trace (snd st1) ++ Ev (PagePause 2) rp :: rel
       /\ all_release rel.
Proof.
  cbv zeta.
  assert (H1 : acquire calm (init_frame, fresh)
               = (Ok 2, snd (acquire calm (init_frame, fresh))))
    by (vm_compute; reflexivity).
  refine (conj H1 (conj eq_refl _)).
  exact (empty_plan_parks calm sample_repr (PList []) fresh 2 _ H1 eq_refl).
Defined.

(** The number 42 as the plan. *)
Lemma scalar_plan_witness :
  let st1 := snd (acquire calm (init_frame, fresh)) in
  is_scalar (PInt 42) = true
  /\ acquire calm (init_frame, fresh) = (Ok 2, st1)
  /\ exists r f s' rel,
       run_plan calm sample_repr (PInt 42) fresh = (r, (f, s'))
       /\ results f = [error_line (not_iterable_error (PInt 42))]
       /\ trace s' = trace (snd st1) ++ rel
       /\ all_release rel.
Proof.
  cbv zeta.
  assert (H1 : acquire calm (init_frame, fresh)
               = (Ok 2, snd (acquire calm (init_frame, fresh))))
    by (vm_compute; reflexivity).
  refine (conj eq_refl (conj H1 _)).
  exact (scalar_plan_is_not_iterable calm sample_repr (PInt 42) fresh 2 _ eq_refl H1).
Defined.

(** An object that wraps the array. *)
Lemma object_plan_witness :
  let st1 := snd (acquire calm (init_frame, fresh)) in
  acquire calm (init_frame, fresh) = (Ok 2, st1)
  /\ exists r f s' rel,
       run_plan calm sample_repr (PDict [("actions", plan_A)]) fresh = (r, (f, s'))
       /\ results f = ["An error occurred: 'str' object has no attribute 'get'"%string]
       /\ trace s' = trace (snd st1) ++ rel
       /\ all_release rel.
Proof.
  cbv zeta.
  assert (H1 : acquire calm (init_frame, fresh)
               = (Ok 2, snd (acquire calm (init_frame, fresh))))
    by (vm_compute; reflexivity).
  refine (conj H1 _).
  exact (object_plan_fails_on_first_key calm sample_repr "actions" plan_A []
           fresh 2 _ H1).
Defined.

(** A number between two actions. *)
Lemma non_dict_step_witness :
  let st1 := snd (acquire calm (init_frame, fresh)) in
  let st2 := snd (run_steps calm sample_repr 2 [navigate_example] st1) in
  py_iter (PList [navigate_example; PInt 7; end_done])
  = Ok ([navigate_example] ++ PInt 7 :: [end_done])
  /\ is_dict (PInt 7) = false
  /\ acquire calm (init_frame, fresh) = (Ok 2, st1)
  /\ run_steps calm sample_repr 2 [navigate_example] st1 = (Ok Next, st2)
  /\ exists r f s' rel,
       run_plan calm sample_repr (PList [navigate_example; PInt 7; end_done]) fresh
       = (r, (f, s'))
       /\ results f = results (fst st2) ++ [error_line (no_get_error (PInt 7))]
       /\ trace s' = trace (snd st2) ++ rel
       /\ all_release rel.
Proof.
  cbv zeta.
  assert (H1 : acquire calm (init_frame, fresh)
               = (Ok 2, snd (acquire calm (init_frame, fresh))))
    by (vm_compute; reflexivity).
  assert (H2 : run_steps calm sample_repr 2 [navigate_example]
                 (snd (acquire calm (init_frame, fresh)))
               = (Ok Next,
                  snd (run_steps calm sample_repr 2 [navigate_example]
                         (snd (acquire calm (init_frame, fresh))))))
    by (vm_compute; reflexivity).
  refine (conj eq_refl (conj eq_refl (conj H1 (conj H2 _)))).
  exact (non_dict_step_aborts calm sample_repr
           (PList [navigate_example; PInt 7; end_done])
           [navigate_example] (PInt 7) [end_done] fresh 2 _ _
           eq_refl eq_refl H1 H2).
Defined.


(** A [navigate] with no [url]. *)
Lemma missing_field_witness :
  let st1 := snd (acquire calm (init_frame, fresh)) in
  eq_str (dict_get [("action", PStr "navigate")] "action") "navigate" = true
  /\ has_key [("action", PStr "navigate")] "url" = false
  /\ logs_after calm (Goto 2 PNone) (fun _ => "Navigated to None"%string)
       st1 (run_step calm sample_repr 2 (PDict [("action", PStr "navigate")]) st1).
Proof.
  cbv zeta. refine (conj eq_refl (conj eq_refl _)).
  exact (proj1 (missing_field_reads_none calm sample_repr 2
                  [("action", PStr "navigate")]
                  (snd (acquire calm (init_frame, fresh))))
           eq_refl eq_refl).
Defined.

(** Scenario A stays on its session. *)
Lemma calls_stay_on_the_session_witness :
  let st1 := snd (acquire calm (init_frame, fresh)) in
  acquire calm (init_frame, fresh) = (Ok 2, st1)
  /\ exists pw b r f s' rest,
       run_plan calm sample_repr plan_A fresh = (r, (f, s'))
       /\ trace s' =
            trace fresh
            ++ [Ev PlaywrightStart (Ok pw); Ev (Launch pw false) (Ok b);
                Ev (NewPage b) (Ok 2)]
            ++ rest
       /\ Forall (fun ev => on_session pw b 2 ev = true) rest.
Proof.
  cbv zeta.
  assert (H1 : acquire calm (init_frame, fresh)
               = (Ok 2, snd (acquire calm (init_frame, fresh))))
    by (vm_compute; reflexivity).
  refine (conj H1 _).
  exact (calls_stay_on_the_session calm sample_repr plan_A fresh 2 _ H1).
Defined.

(** The translator answers a number of 5000 digits. *)
Lemma other_json_error_witness :
  let s1 := snd (translate_stage (answers long_number) "Open example.com" fresh) in
  translate_stage (answers long_number) "Open example.com" fresh = (Ok long_number, s1)
  /\ sample_json_loads_limited long_number = Raise digits_error
  /\ is_json_decode_error digits_error = false
  /\ brain_orchestrator (answers long_number) sample_repr sample_json_loads_limited
       "Open example.com" 0
     = {| yielded := [progress_message long_number;
                      execution_error_message digits_error];
          propagated := None;
          calls := trace s1 |}
  /\ count is_browser_call (trace s1) = 0.
Proof.
  cbv zeta.
  assert (H1 : translate_stage (answers long_number) "Open example.com" fresh
               = (Ok long_number,
                  snd (translate_stage (answers long_number) "Open example.com" fresh)))
    by (vm_compute; reflexivity).
  assert (H2 : sample_json_loads_limited long_number = Raise digits_error)
    by (vm_compute; reflexivity).
  refine (conj H1 (conj H2 (conj eq_refl _))).
  exact (other_json_error_is_execution_error (answers long_number) sample_repr
           sample_json_loads_limited "Open example.com" 0 _ _ _ H1 H2 eq_refl).
Defined.

(** Scenario A in the world where the close raises. *)
Lemma close_failure_skips_stop_witness :
  exists r f s' t,
    run_plan close_breaks sample_repr plan_A fresh = (r, (f, s'))
    /\ trace s' = trace fresh ++ t
    /\ (count (failed is_close) t = 1 ->
        count is_stop t = 0
        /\ exists e,
             r = Raise e
             /\ fst (execute_playwright_plan close_breaks sample_repr plan_A fresh)
                = Raise e).
Proof.
  exact (close_failure_skips_stop close_breaks sample_repr plan_A fresh).
Defined.
